(** * A TTL cache and its HTTP router: the model of [server.py]

    The development follows [server.py] method by method.

    - Python values are an inductive type [pyval]; dictionaries are
      objects living in a store ([heap]) and a value only holds a
      reference to them, so that two holders of the same dictionary see
      each other's updates, as in Python.
    - [time.time()] is an input of every operation that reads the clock.
      Clock readings and the ttl are rationals ([Q]): Python's floats
      and ints are rationals, and the code only subtracts two readings
      and compares the difference with the ttl.
    - A method is a computation in a state-and-exception monad [M]: it
      receives the state, returns either a result ([Ok]) or a raised
      exception ([Raise]), and the state it leaves behind.
    - The network and the wire are outside the model: the upstream call
      is an input of [do_GET] ([upstream]), and a handler's answer is the
      record [response] of what it sends. *)

From Stdlib Require Import QArith Lqa Ascii String.
From stdpp Require Import gmap strings list fin_maps pretty.

Local Open Scope Z_scope.

(** ** Python values and the object store *)

Definition loc := positive.

#[warnings="-register-all"]
Inductive pyval : Type :=
  | VNone
  | VBool (b : bool)
  | VNum (q : Q)
  | VStr (s : string)
  | VList (items : list pyval)
  | VDict (l : loc).

(** A dictionary object: every dictionary of the program has [str] keys. *)
Abbreviation pydict := (gmap string pyval).
Abbreviation heap_t := (gmap loc (gmap string pyval)).

(** [bool(v)], the test of [if v:]. *)
Definition truthy (h : heap_t) (v : pyval) : bool :=
  match v with
  | VNone => false
  | VBool b => b
  | VNum q => negb (Qeq_bool q 0)
  | VStr s => negb (String.eqb s "")
  | VList items => negb (Nat.eqb (length items) 0)
  | VDict l => negb (Nat.eqb (size (h !!! l)) 0)
  end.

(** ** Exceptions and the monad of methods *)

Inductive exn : Type := KeyError | TypeError.

Inductive result (A : Type) : Type :=
  | Ok (a : A)
  | Raise (e : exn).
Arguments Ok {A} a.
Arguments Raise {A} e.

Definition M (St A : Type) : Type := St → result A * St.

#[global] Instance M_ret {St} : MRet (M St) := λ A a s, (Ok a, s).
#[global] Instance M_bind {St} : MBind (M St) := λ A B f m s,
  match m s with
  | (Ok a, s') => f a s'
  | (Raise e, s') => (Raise e, s')
  end.

Definition gets {St A} (f : St → A) : M St A := λ s, (Ok (f s), s).
Definition modify {St} (f : St → St) : M St unit := λ s, (Ok tt, f s).

(** ** class Cache *)

(** The comparisons of clock readings are decidable. *)
#[global] Instance Qlt_decision (x y : Q) : Decision (x < y)%Q :=
  Z.lt_dec (Qnum x * QDen y) (Qnum y * QDen x).
#[global] Instance Qle_decision (x y : Q) : Decision (x <= y)%Q :=
  Z.le_dec (Qnum x * QDen y) (Qnum y * QDen x).
Arguments Qlt_decision : simpl never.
Arguments Qle_decision : simpl never.

(** [self.cache : Dict[str, Tuple[any, float]]] and [self.ttl]. *)
Record Cache : Type := mkCache {
  cache : gmap string (pyval * Q);
  ttl : Q
}.

(** [Cache(ttl_seconds)] *)
Definition Cache_init (ttl_seconds : Q) : Cache :=
  {| cache := ∅; ttl := ttl_seconds |}.

Definition with_cache (f : gmap string (pyval * Q) → gmap string (pyval * Q))
    (c : Cache) : Cache :=
  {| cache := f (cache c); ttl := ttl c |}.

(** The dictionary primitives the methods use. [d[key]] and [del d[key]]
    raise [KeyError] on a missing key. *)
Definition contains (key : string) : M Cache bool :=
  gets (λ c, bool_decide (is_Some (cache c !! key))).

Definition getitem (key : string) : M Cache (pyval * Q) := λ c,
  match cache c !! key with
  | Some e => (Ok e, c)
  | None => (Raise KeyError, c)
  end.

Definition delitem (key : string) : M Cache unit := λ c,
  match cache c !! key with
  | Some _ => (Ok tt, with_cache (delete key) c)
  | None => (Raise KeyError, c)
  end.

Definition setitem (key : string) (e : pyval * Q) : M Cache unit :=
  modify (with_cache (insert key e)).

(** [Cache.get]; [now] is the reading of [time.time()]. *)
Definition get (now : Q) (key : string) : M Cache pyval :=
  b ← contains key;
  if b : bool then
    e ← getitem key;
    let '(value, timestamp) := e in
    t ← gets ttl;
    if decide (now - timestamp < t)%Q then mret value
    else _ ← delitem key; mret VNone
  else mret VNone.

(** [Cache.set]. A method without a [return] statement returns [None]. *)
Definition set (now : Q) (key : string) (value : pyval) : M Cache pyval :=
  _ ← setitem key (value, now);
  mret VNone.

(** [Cache.clear] *)
Definition clear : M Cache pyval :=
  _ ← modify (with_cache (λ _, ∅));
  mret VNone.

(** [Cache.remove] *)
Definition remove (key : string) : M Cache pyval :=
  b ← contains key;
  if b : bool then _ ← delitem key; mret VNone
  else mret VNone.

(** The dictionary [get_stats] returns. *)
Record Stats : Type := mkStats {
  total_entries : Z;
  valid_entries : Z;
  expired_entries : Z;
  ttl_seconds : Q
}.

(** [self.cache.values()] *)
Definition values (c : Cache) : list (pyval * Q) := (map_to_list (cache c)).*2.

(** [len(self.cache)] *)
Definition len (c : Cache) : Z := Z.of_nat (size (cache c)).

(** [sum(1 for _ in l)] *)
Definition sum_ones {A} (l : list A) : Z := foldr (λ _ acc, 1 + acc) 0 l.

(** [Cache.get_stats]; [now] is the reading of [time.time()]. *)
Definition get_stats (now : Q) : M Cache Stats := λ c,
  let current_time := now in
  let valid_entries :=
    sum_ones (filter (λ e, (current_time - e.2 < ttl c)%Q) (values c)) in
  (Ok {| total_entries := len c;
         valid_entries := valid_entries;
         expired_entries := len c - valid_entries;
         ttl_seconds := ttl c |}, c).

(** The stored entries that are valid at time [now] (age < ttl), and
    those that are expired (ttl <= age). *)
Definition valid_part (now : Q) (c : Cache) : gmap string (pyval * Q) :=
  filter (λ kv, (now - kv.2.2 < ttl c)%Q) (cache c).

Definition expired_part (now : Q) (c : Cache) : gmap string (pyval * Q) :=
  filter (λ kv, (ttl c <= now - kv.2.2)%Q) (cache c).

(** ** The router: class GistHandler

    The store of the process: the dictionary objects and the global
    [gist_cache]. *)
Record server : Type := mkServer {
  heap : heap_t;
  gist_cache : Cache
}.

(** A method of [gist_cache] called from a handler. *)
Definition on_cache {A} (m : M Cache A) : M server A := λ s,
  let '(r, c) := m (gist_cache s) in
  (r, {| heap := heap s; gist_cache := c |}).

(** A dictionary display [{...}]: a new object, at an unused address. *)
Definition new_dict (d : pydict) : M server pyval := λ s,
  let l := fresh (dom (heap s)) in
  (Ok (VDict l), {| heap := <[l := d]> (heap s); gist_cache := gist_cache s |}).

(** [v[key]] *)
Definition subscript (v : pyval) (key : string) : M server pyval := λ s,
  match v with
  | VDict l =>
      match (heap s !!! l) !! key with
      | Some x => (Ok x, s)
      | None => (Raise KeyError, s)
      end
  | _ => (Raise TypeError, s)
  end.

(** [v[key] = x] *)
Definition store_subscript (v : pyval) (key : string) (x : pyval) : M server unit := λ s,
  match v with
  | VDict l =>
      (Ok tt, {| heap := <[l := <[key := x]> (heap s !!! l)]> (heap s);
                 gist_cache := gist_cache s |})
  | _ => (Raise TypeError, s)
  end.

(** What a handler sends: [json.dumps] of a value is identified by the
    value, to be read in the store the handler leaves. *)
Inductive body : Type :=
  | BodyHtml
  | BodyJson (v : pyval)
  | BodyStats (stats : Stats)
  | BodyCleared (entries_removed : Z)
  | BodyUserNotFound (username : string)
  | BodyGitHubError (code : Z)
  | BodyServerError.

Record response : Type := mkResponse {
  status : Z;
  content_type : string;
  x_cache_status : option string;
  payload : body
}.

(** [str.lower], on ASCII letters. *)
Definition lower_ascii (c : ascii) : ascii :=
  let n := N_of_ascii c in
  if ((65 <=? n) && (n <=? 90))%N then ascii_of_N (n + 32) else c.

Fixpoint lower (s : string) : string :=
  match s with
  | EmptyString => EmptyString
  | String c s' => String (lower_ascii c) (lower s')
  end.

(** The outcome of [fetch_gists_from_github] followed by [format_gists]
    and the conversion of the reset time: the formatted list and the two
    rate-limit values, an [HTTPError] with its code, or another
    exception. *)
Inductive upstream : Type :=
  | Fetched (gist_list : list pyval) (rate_remaining reset_at : pyval)
  | HTTPError (code : Z)
  | OtherException.

(** The cache key of [do_GET]:
    [f"{username}:page{page}:per_page{per_page}"]. *)
Definition cache_key (username : string) (page per_page : Z) : string :=
  username +:+ ":page" +:+ pretty page +:+ ":per_page" +:+ pretty per_page.

Definition VInt (n : Z) : pyval := VNum (inject_Z n).

(** [GistHandler.send_cached_response] *)
Definition send_cached_response (cached_data : pyval) : M server response :=
  c ← subscript cached_data "cache";
  _ ← store_subscript c "hit" (VBool true);
  mret {| status := 200; content_type := "application/json";
          x_cache_status := Some "HIT"; payload := BodyJson cached_data |}.

(** [GistHandler.handle_root] *)
Definition handle_root : M server response :=
  mret {| status := 200; content_type := "text/html";
          x_cache_status := None; payload := BodyHtml |}.

(** [GistHandler.handle_cache_stats] *)
Definition handle_cache_stats (now : Q) : M server response :=
  stats ← on_cache (get_stats now);
  mret {| status := 200; content_type := "application/json";
          x_cache_status := None; payload := BodyStats stats |}.

(** [GistHandler.handle_cache_clear] *)
Definition handle_cache_clear : M server response :=
  entries_before ← on_cache (gets len);
  _ ← on_cache clear;
  mret {| status := 200; content_type := "application/json";
          x_cache_status := None; payload := BodyCleared entries_before |}.

(** [GistHandler.handle_http_error] *)
Definition handle_http_error (code : Z) (username : string) : M server response :=
  if decide (code = 404) then
    mret {| status := 404; content_type := "application/json";
            x_cache_status := None; payload := BodyUserNotFound username |}
  else
    mret {| status := code; content_type := "application/json";
            x_cache_status := None; payload := BodyGitHubError code |}.

(** [GistHandler.handle_server_error] *)
Definition handle_server_error : M server response :=
  mret {| status := 500; content_type := "application/json";
          x_cache_status := None; payload := BodyServerError |}.

(** The [try] block of [do_GET]: the path of a cache miss. *)
Definition fetch_and_store (username : string) (page per_page : Z)
    (key : string) (now : Q) (up : upstream) : M server response :=
  match up with
  | Fetched gist_list rate_remaining reset_at =>
      let n := Z.of_nat (length gist_list) in
      pagination ← new_dict (list_to_map
        [("current_page", VInt page);
         ("per_page", VInt per_page);
         ("has_next", VBool (n =? per_page));
         ("next_page", if n =? per_page then VInt (page + 1) else VNone);
         ("prev_page", if 1 <? page then VInt (page - 1) else VNone)]);
      rate_limit ← new_dict (list_to_map
        [("remaining", rate_remaining); ("reset_at", reset_at)]);
      t ← on_cache (gets ttl);
      cache_info ← new_dict (list_to_map
        [("hit", VBool false); ("ttl_seconds", VNum t)]);
      response_data ← new_dict (list_to_map
        [("username", VStr username);
         ("page", VInt page);
         ("per_page", VInt per_page);
         ("gist_count", VInt n);
         ("gists", VList gist_list);
         ("pagination", pagination);
         ("rate_limit", rate_limit);
         ("cache", cache_info)]);
      _ ← on_cache (set now key response_data);
      mret {| status := 200; content_type := "application/json";
              x_cache_status := Some "MISS"; payload := BodyJson response_data |}
  | HTTPError code => handle_http_error code username
  | OtherException => handle_server_error
  end.

Section Router.

(** Python's [int(str)]; [None] stands for [ValueError]. *)
Variable int : string → option Z.

(** [GistHandler.get_pagination_params] *)
Definition get_pagination_params (params : gmap string string) : Z * Z :=
  match int (default "1" (params !! "page")) with
  | Some page =>
      match int (default "30" (params !! "per_page")) with
      | Some per_page =>
          let page := Z.max 1 (Z.min page 100) in
          let per_page := Z.max 1 (Z.min per_page 100) in
          (page, per_page)
      | None => (1, 30)
      end
  | None => (1, 30)
  end.

(** [GistHandler.do_GET], from the path already split by [urlparse]
    and stripped of its slashes ([username]) and the query already
    parsed ([params]). [now_get] and [now_set] are the readings of
    [time.time()] in [Cache.get] (or [get_stats]) and in [Cache.set];
    [up] is what the upstream call gives if it is made. *)
Definition do_GET (username : string) (params : gmap string string)
    (now_get now_set : Q) (up : upstream) : M server response :=
  if bool_decide (username = "" ∨ username = "index.html") then handle_root
  else if bool_decide (username = "cache") then handle_cache_stats now_get
  else if String.prefix "cache/clear" username then handle_cache_clear
  else
    let '(page, per_page) := get_pagination_params params in
    let bypass_cache :=
      String.eqb (lower (default "" (params !! "no_cache"))) "true" in
    let key := cache_key username page per_page in
    served ←
      (if negb bypass_cache then
         cached_data ← on_cache (get now_get key);
         b ← gets (λ s, truthy (heap s) cached_data);
         if b : bool then r ← send_cached_response cached_data; mret (Some r)
         else mret None
       else mret None);
    match served with
    | Some r => mret r
    | None => fetch_and_store username page per_page key now_set up
    end.

(** One request served by the process. *)
Record request : Type := mkRequest {
  req_username : string;
  req_params : gmap string string;
  req_now_get : Q;
  req_now_set : Q;
  req_upstream : upstream
}.

(** The store after a request, whether the handler returned or raised. *)
Definition serve (s : server) (r : request) : server :=
  (do_GET (req_username r) (req_params r) (req_now_get r) (req_now_set r)
          (req_upstream r) s).2.

Definition run (rs : list request) (s : server) : server := foldl serve s rs.

End Router.

(** [v['cache']['hit']] read in store [h]. *)
Definition read_hit (h : heap_t) (v : pyval) : option pyval :=
  match v with
  | VDict l =>
      match (h !!! l) !! "cache" with
      | Some (VDict l2) => (h !!! l2) !! "hit"
      | _ => None
      end
  | _ => None
  end.

(** ** Predicates and example states used by the properties *)

(** The two caches of the examples: one entry stored at time 0, under a
    ttl of 300 seconds and under a ttl of 0. *)
Definition one_entry : Cache :=
  {| cache := {[ "u:page1" := (VStr "gists", 0%Q) ]}; ttl := 300 |}.

Definition one_entry_ttl0 : Cache :=
  {| cache := {[ "u:page1" := (VStr "gists", 0%Q) ]}; ttl := 0 |}.

(** The character [c] occurs in [s]. *)
Fixpoint occurs (c : ascii) (s : string) : Prop :=
  match s with
  | EmptyString => False
  | String a s' => a = c ∨ occurs c s'
  end.

(** The paths that [do_GET] serves from the cache or from upstream. *)
Definition gist_request (username : string) : Prop :=
  username ≠ "" ∧ username ≠ "index.html" ∧ username ≠ "cache" ∧
  String.prefix "cache/clear" username = false.

(** [m] keeps the property [P] of the store, whether it returns or raises. *)
Definition preserves {A} (P : server → Prop) (m : M server A) : Prop :=
  ∀ s, P s → P (m s).2.

(** The object [v] is marked as served from the cache. *)
Definition marked (v : pyval) (s : server) : Prop :=
  read_hit (heap s) v = Some (VBool true).

(** The examples of the router: [int] on the two strings the examples
    parse, the process as it starts, after one miss for [octocat], and
    with [None] stored under the key of [octocat]. *)
Definition int_example (s : string) : option Z :=
  if String.eqb s "1" then Some 1
  else if String.eqb s "30" then Some 30
  else None.

Definition started : server := {| heap := ∅; gist_cache := Cache_init 300 |}.

Definition served_once : server :=
  (do_GET int_example "octocat" ∅ 0 1 (Fetched [] (VStr "59") VNone) started).2.

Definition none_stored : server :=
  {| heap := ∅;
     gist_cache := (set 0 "octocat:page1:per_page30" VNone (Cache_init 300)).2 |}.

(** ** Definitions used by the further properties *)

(** Two entries stored at times 0 and 200, under a ttl of 300 seconds. *)
Definition two_entries : Cache :=
  {| cache := {[ "a:page1" := (VStr "first", 0%Q); "b:page1" := (VStr "second", 200%Q) ]};
     ttl := 300 |}.


(** The field [key] of the dictionary at [l] holds [x]. *)
Definition field_is (l : loc) (key : string) (x : pyval) (s : server) : Prop :=
  (heap s !!! l) !! key = Some x.

(** Three requests of the examples: the statistics, the gists of another
    user, and the gists of [octocat] again. *)
Definition three_requests : list request :=
  [mkRequest "cache" ∅ 150 150 OtherException;
   mkRequest "hubot" ∅ 160 161 (Fetched [] VNone VNone);
   mkRequest "octocat" ∅ 200 201 OtherException].

(** The query [?no_cache=TRUE]. *)
Definition no_cache_query : gmap string string := {[ "no_cache" := "TRUE" ]}.

(** [v[key]] and [v[key1][key2]] read in store [h]. *)
Definition read1 (h : heap_t) (v : pyval) (key : string) : option pyval :=
  match v with
  | VDict l => (h !!! l) !! key
  | _ => None
  end.

Definition read2 (h : heap_t) (v : pyval) (key1 key2 : string) : option pyval :=
  match read1 h v key1 with
  | Some v' => read1 h v' key2
  | None => None
  end.

(** ** [GistHandler.parse_query_params] and [GistHandler.format_gists] *)


(** What [format_gists] raises: an exception of [exn], or
    [AttributeError] (on [.keys()] of a value that is not a dictionary). *)
Inductive format_exn : Type :=
  | FormatExn (e : exn)
  | AttributeError.

Inductive formatted (A : Type) : Type :=
  | Formatted (a : A)
  | FormatRaise (e : format_exn).
Arguments Formatted {A} a.
Arguments FormatRaise {A} e.

#[global] Instance formatted_ret : MRet formatted := λ A a, Formatted a.
#[global] Instance formatted_bind : MBind formatted := λ A B f m,
  match m with
  | Formatted a => f a
  | FormatRaise e => FormatRaise e
  end.

(** [g[key]] on the dictionary [g]. *)
Definition item (g : pydict) (key : string) : formatted pyval :=
  match g !! key with
  | Some x => Formatted x
  | None => FormatRaise (FormatExn KeyError)
  end.

(** [list(v.keys())] and [len(v)] for the value of [gist['files']]. The
    dictionaries of the model are not ordered: the list holds the keys
    in the order of the map, not in the order of insertion. *)
Definition keys_list (h : heap_t) (v : pyval) : formatted (list pyval) :=
  match v with
  | VDict l => Formatted (VStr <$> (map_to_list (h !!! l)).*1)
  | _ => FormatRaise AttributeError
  end.

Definition py_len (h : heap_t) (v : pyval) : formatted Z :=
  match v with
  | VDict l => Formatted (Z.of_nat (size (h !!! l)))
  | VStr s => Formatted (Z.of_nat (String.length s))
  | VList items => Formatted (Z.of_nat (length items))
  | _ => FormatRaise (FormatExn TypeError)
  end.

(** The body of the loop of [format_gists]: the dictionary [gist_info]
    built from [gist], read in store [h]. *)
Definition format_gist (h : heap_t) (gist : pyval) : formatted pydict :=
  match gist with
  | VDict l =>
      let g := h !!! l in
      id ← item g "id";
      description ← item g "description";
      url ← item g "html_url";
      files ← item g "files";
      names ← keys_list h files;
      files' ← item g "files";
      file_count ← py_len h files';
      public ← item g "public";
      created_at ← item g "created_at";
      updated_at ← item g "updated_at";
      mret (list_to_map
        [("id", id);
         ("description",
            if truthy h description then description else VStr "No description");
         ("url", url);
         ("files", VList names);
         ("file_count", VInt file_count);
         ("public", public);
         ("created_at", created_at);
         ("updated_at", updated_at);
         ("comments", default (VInt 0) (g !! "comments"))])
  | _ => FormatRaise (FormatExn TypeError)
  end.

(** The loop of [format_gists], [gist_list] being the list built so
    far; every [gist_info] is a new object of the store. *)
Fixpoint format_gists_loop (gists gist_list : list pyval) (s : server)
    : formatted (list pyval) * server :=
  match gists with
  | [] => (Formatted gist_list, s)
  | gist :: gists' =>
      match format_gist (heap s) gist with
      | Formatted d =>
          match new_dict d s with
          | (Ok gist_info, s') => format_gists_loop gists' (gist_list ++ [gist_info]) s'
          | (Raise e, s') => (FormatRaise (FormatExn e), s')
          end
      | FormatRaise e => (FormatRaise e, s)
      end
  end.

(** [GistHandler.format_gists] *)
Definition format_gists (gists : list pyval) (s : server)
    : formatted (list pyval) * server :=
  format_gists_loop gists [] s.

(** The references held by the dictionary of [gist] point into the
    store, as those of every Python object do. *)
Definition closed (h : heap_t) (gist : pyval) : Prop :=
  ∀ l, gist = VDict l →
    l ∈ dom h ∧ ∀ key l', (h !!! l) !! key = Some (VDict l') → l' ∈ dom h.

(** [gist] is a dictionary with the seven keys [format_gists] reads by
    subscript, its [files] being a dictionary. *)
Definition formattable (h : heap_t) (gist : pyval) : Prop :=
  ∃ l lf, gist = VDict l ∧
    (h !!! l) !! "files" = Some (VDict lf) ∧
    ∀ key, key ∈ ["id"; "description"; "html_url"; "files"; "public";
                  "created_at"; "updated_at"] → is_Some ((h !!! l) !! key).

(** A store with two gists as [json.loads] builds them: the first with
    one file, no description and no [comments]; the second without
    [html_url]. *)
Definition gist_store : server :=
  {| heap := {[ 1%positive := {[ "id" := VStr "aa5a315d61ae9438b18d";
                                 "description" := VNone;
                                 "html_url" := VStr "https://gist.github.com/aa5a";
                                 "files" := VDict 2%positive;
                                 "public" := VBool true;
                                 "created_at" := VStr "2010-04-14T02:15:15Z";
                                 "updated_at" := VStr "2011-06-20T11:34:15Z" ]};
                2%positive := {[ "hello_world.rb" := VNone ]};
                3%positive := {[ "id" := VStr "bb"; "description" := VStr "second";
                                 "files" := VDict 2%positive;
                                 "public" := VBool true;
                                 "created_at" := VStr "2012";
                                 "updated_at" := VStr "2013" ]} ]};
     gist_cache := Cache_init 300 |}.

(** [closed], as a check that can be run. *)
Definition closedb (h : heap_t) (gist : pyval) : bool :=
  match gist with
  | VDict l =>
      bool_decide (l ∈ dom h) &&
      forallb (λ kv, match kv.2 with
                     | VDict l' => bool_decide (l' ∈ dom h)
                     | _ => true
                     end) (map_to_list (h !!! l))
  | _ => true
  end.

(** [formattable], as a check that can be run. *)
Definition formattableb (h : heap_t) (gist : pyval) : bool :=
  match format_gist h gist with
  | Formatted _ => true
  | FormatRaise _ => false
  end.

(** * Properties *)

(** ** Running the model on the scenarios of the specification *)

Example get_stats_empty :
  get_stats 0 (Cache_init 300) = (Ok (mkStats 0 0 0 300), Cache_init 300).
Proof. reflexivity. Qed.

Example scenario_get_at_100 :
  get 100 "u:page1" (set 0 "u:page1" (VStr "gists") (Cache_init 300)).2
  = (Ok (VStr "gists"), (set 0 "u:page1" (VStr "gists") (Cache_init 300)).2).
Proof. vm_compute. reflexivity. Qed.

Example scenario_get_at_400 :
  get 400 "u:page1" (set 0 "u:page1" (VStr "gists") (Cache_init 300)).2
  = (Ok VNone, Cache_init 300).
Proof. vm_compute. reflexivity. Qed.

(** ** The cache *)

Lemma Qnot_lt_iff_le (x y : Q) : ¬ (x < y)%Q ↔ (y <= x)%Q.
Proof. split; [apply Qnot_lt_le | apply Qle_not_lt]. Qed.

Lemma sum_ones_length {A} (l : list A) : sum_ones l = Z.of_nat (length l).
Proof. induction l as [|x l IH]; simpl; [done | rewrite IH; lia]. Qed.

(** The four methods, as equations on the stored mapping. *)
Lemma get_absent now key c :
  cache c !! key = None → get now key c = (Ok VNone, c).
Proof.
  intros H. unfold get, contains, gets, mbind, M_bind; simpl.
  rewrite H. rewrite bool_decide_eq_false_2; [done | by intros [? ?]].
Qed.

Lemma get_valid now key c value timestamp :
  cache c !! key = Some (value, timestamp) →
  (now - timestamp < ttl c)%Q →
  get now key c = (Ok value, c).
Proof.
  intros H Hage. unfold get, contains, getitem, gets, mbind, M_bind; simpl.
  rewrite bool_decide_eq_true_2 by eauto. simpl. rewrite H. simpl.
  by rewrite decide_True.
Qed.

Lemma get_expired now key c value timestamp :
  cache c !! key = Some (value, timestamp) →
  (ttl c <= now - timestamp)%Q →
  get now key c = (Ok VNone, with_cache (delete key) c).
Proof.
  intros H Hage. unfold get, contains, getitem, delitem, gets, mbind, M_bind; simpl.
  rewrite bool_decide_eq_true_2 by eauto. simpl. rewrite H. simpl.
  rewrite decide_False by by apply Qnot_lt_iff_le.
  by rewrite H.
Qed.

Lemma set_eq now key value c :
  set now key value c = (Ok VNone, with_cache (insert key (value, now)) c).
Proof. reflexivity. Qed.

Lemma clear_eq c : clear c = (Ok VNone, with_cache (λ _, ∅) c).
Proof. reflexivity. Qed.

Lemma get_after_set c k v inserted_at now :
  (now - inserted_at < ttl c)%Q →
  get now k (set inserted_at k v c).2 = (Ok v, (set inserted_at k v c).2).
Proof.
  intros Hage. apply (get_valid now k _ v inserted_at); [|done].
  rewrite set_eq. simpl. apply lookup_insert_eq.
Qed.

(** Two calls of [set] on one key, one after the other, leave one entry
    for the key: the entry of the second call. *)
Lemma set_twice c k v1 v2 t1 t2 :
  cache (set t2 k v2 (set t1 k v1 c).2).2 = <[k := (v2, t2)]> (cache c).
Proof. rewrite !set_eq. simpl. apply insert_insert_eq. Qed.

Lemma remove_present key c e :
  cache c !! key = Some e → remove key c = (Ok VNone, with_cache (delete key) c).
Proof.
  intros H. unfold remove, contains, delitem, gets, mbind, M_bind; simpl.
  rewrite bool_decide_eq_true_2 by eauto. by rewrite H.
Qed.

Lemma remove_absent key c :
  cache c !! key = None → remove key c = (Ok VNone, c).
Proof.
  intros H. unfold remove, contains, gets, mbind, M_bind; simpl.
  rewrite bool_decide_eq_false_2; [done | rewrite H; by intros [? ?]].
Qed.

(** Counting the values that satisfy [P] is taking the size of the
    filtered mapping. *)
Lemma count_values (P : pyval * Q → Prop) `{!∀ e, Decision (P e)}
    (m : gmap string (pyval * Q)) :
  length (filter P (map_to_list m).*2) = size (filter (λ kv, P kv.2) m).
Proof.
  induction m as [|k e m Hk IH] using map_ind.
  - by rewrite map_to_list_empty, map_filter_empty, map_size_empty.
  - rewrite map_to_list_insert by done. rewrite fmap_cons. cbn [snd].
    destruct (decide (P e)) as [HP|HP].
    + rewrite filter_cons_True by done. rewrite length_cons.
      rewrite map_filter_insert_True by done.
      rewrite map_size_insert_None by (by apply map_lookup_filter_None_2; left).
      by rewrite IH.
    + rewrite filter_cons_False by done.
      rewrite map_filter_insert_False by done.
      by rewrite delete_id.
Qed.

Lemma size_valid_expired now c :
  (size (valid_part now c) + size (expired_part now c))%nat = size (cache c).
Proof.
  unfold valid_part, expired_part.
  rewrite <-(map_filter_union_complement (λ kv, (now - kv.2.2 < ttl c)%Q) (cache c)) at 3.
  rewrite map_size_disj_union by apply map_disjoint_filter_complement.
  f_equal. f_equal. apply map_filter_ext. intros k e _. simpl.
  symmetry. apply Qnot_lt_iff_le.
Qed.

Lemma get_stats_eq now c :
  get_stats now c =
  (Ok {| total_entries := Z.of_nat (size (cache c));
         valid_entries := Z.of_nat (size (valid_part now c));
         expired_entries := Z.of_nat (size (expired_part now c));
         ttl_seconds := ttl c |}, c).
Proof.
  unfold get_stats, len, values. rewrite sum_ones_length.
  rewrite (count_values (λ e, (now - e.2 < ttl c)%Q)).
  fold (valid_part now c).
  pose proof (size_valid_expired now c) as Hsz.
  do 3 f_equal. lia.
Qed.

Lemma valid_part_lookup now c k v ts :
  valid_part now c !! k = Some (v, ts) ↔
  cache c !! k = Some (v, ts) ∧ (now - ts < ttl c)%Q.
Proof. unfold valid_part. by rewrite map_lookup_filter_Some. Qed.

Lemma expired_part_lookup now c k v ts :
  expired_part now c !! k = Some (v, ts) ↔
  cache c !! k = Some (v, ts) ∧ (ttl c <= now - ts)%Q.
Proof. unfold expired_part. by rewrite map_lookup_filter_Some. Qed.

Lemma valid_part_expired now c k v ts :
  cache c !! k = Some (v, ts) → (ttl c <= now - ts)%Q →
  valid_part now c !! k = None.
Proof.
  intros Hk Hage. unfold valid_part. apply map_lookup_filter_None_2. right.
  intros e He. rewrite Hk in He. injection He as <-. simpl.
  by apply Qnot_lt_iff_le.
Qed.

(** C1. [set(k, v)] followed by [get(k)] while the age of the entry,
    [now - inserted_at], is strictly less than the ttl returns the stored
    value [v] itself, and the read leaves the cache as it was. *)
Theorem set_then_get (c : Cache) (k : string) (v : pyval) (inserted_at now : Q) :
  (now - inserted_at < ttl c)%Q →
  let c' := (set inserted_at k v c).2 in
  (set inserted_at k v c).1 = Ok VNone ∧ get now k c' = (Ok v, c').
Proof.
  intros Hage c'. split; [done|]. by apply get_after_set.
Qed.

Lemma set_then_get_witness :
  (100 - 0 < ttl (Cache_init 300))%Q ∧
  let c' := (set 0 "u:page1" (VStr "gists") (Cache_init 300)).2 in
  (set 0 "u:page1" (VStr "gists") (Cache_init 300)).1 = Ok VNone ∧
  get 100 "u:page1" c' = (Ok (VStr "gists"), c').
Proof.
  split; [vm_compute; reflexivity|].
  apply (set_then_get (Cache_init 300) "u:page1" (VStr "gists") 0 100).
  vm_compute; reflexivity.
Defined.

(** C2. When the entry of [k] has age >= ttl at the call, [get(k)]
    returns [None] and deletes the entry: [k] is no longer a key of the
    mapping, and [get_stats] afterwards reports one entry less in
    [total_entries] than it would have before. *)
Theorem get_stale_removes (c : Cache) (k : string) (v : pyval) (inserted_at now now' : Q) :
  cache c !! k = Some (v, inserted_at) →
  (ttl c <= now - inserted_at)%Q →
  let c' := (get now k c).2 in
  (get now k c).1 = Ok VNone ∧
  cache c' = delete k (cache c) ∧
  cache c' !! k = None ∧
  ∃ st st', get_stats now' c = (Ok st, c) ∧ get_stats now' c' = (Ok st', c') ∧
            total_entries st' = total_entries st - 1.
Proof.
  intros Hk Hage c'. subst c'. rewrite (get_expired now k c v inserted_at) by done.
  simpl. split_and!; [done | done | apply lookup_delete_eq |].
  eexists _, _. split; [apply get_stats_eq|]. split; [apply get_stats_eq|].
  simpl. rewrite map_size_delete_Some by eauto.
  assert (size (cache c) ≠ 0%nat) as Hne.
  { intros Hsz. apply map_size_empty_inv in Hsz.
    rewrite Hsz in Hk. by rewrite lookup_empty in Hk. }
  lia.
Qed.

Lemma get_stale_removes_witness :
  cache one_entry !! "u:page1" = Some (VStr "gists", 0%Q) ∧
  (ttl one_entry <= 400 - 0)%Q ∧
  let c' := (get 400 "u:page1" one_entry).2 in
  (get 400 "u:page1" one_entry).1 = Ok VNone ∧
  cache c' = delete "u:page1" (cache one_entry) ∧
  cache c' !! "u:page1" = None ∧
  ∃ st st', get_stats 400 one_entry = (Ok st, one_entry) ∧
            get_stats 400 c' = (Ok st', c') ∧
            total_entries st' = total_entries st - 1.
Proof.
  split; [reflexivity|]. split; [vm_compute; discriminate|].
  apply (get_stale_removes one_entry "u:page1" (VStr "gists") 0 400 400).
  - reflexivity.
  - vm_compute; discriminate.
Defined.

(** C3. [get_stats] leaves the cache exactly as it was (no entry is
    removed, expired or not). It reports the number of stored entries as
    [total_entries], the number of entries of age < ttl as
    [valid_entries] and the number of entries of age >= ttl as
    [expired_entries], and the last two add up to the first. An entry that
    is expired and still stored is among those counted in
    [expired_entries] and not among those counted in [valid_entries]. *)
Theorem get_stats_observes (now : Q) (c : Cache) :
  ∃ st, get_stats now c = (Ok st, c) ∧
    total_entries st = Z.of_nat (size (cache c)) ∧
    valid_entries st = Z.of_nat (size (valid_part now c)) ∧
    expired_entries st = Z.of_nat (size (expired_part now c)) ∧
    valid_entries st + expired_entries st = total_entries st ∧
    ttl_seconds st = ttl c ∧
    ∀ k v inserted_at,
      cache c !! k = Some (v, inserted_at) → (ttl c <= now - inserted_at)%Q →
      expired_part now c !! k = Some (v, inserted_at) ∧ valid_part now c !! k = None.
Proof.
  eexists. split; [apply get_stats_eq|]. simpl. split_and!; try done.
  - pose proof (size_valid_expired now c). lia.
  - intros k v ts Hk Hage. split.
    + by apply expired_part_lookup.
    + by eapply valid_part_expired.
Qed.

Lemma get_stats_observes_witness :
  ∃ st, get_stats 400 one_entry = (Ok st, one_entry) ∧
    total_entries st = 1 ∧ valid_entries st = 0 ∧ expired_entries st = 1 ∧
    expired_part 400 one_entry !! "u:page1" = Some (VStr "gists", 0%Q) ∧
    valid_part 400 one_entry !! "u:page1" = None.
Proof.
  destruct (get_stats_observes 400 one_entry)
    as (st & Hst & Htot & Hval & Hexp & _ & _ & Hin).
  exists st. split; [exact Hst|].
  split; [rewrite Htot; reflexivity|].
  split; [rewrite Hval; reflexivity|].
  split; [rewrite Hexp; reflexivity|].
  apply (Hin "u:page1" (VStr "gists") 0%Q).
  - reflexivity.
  - vm_compute; discriminate.
Defined.

(** [Cache.clear] has no [return] statement: what a call gives is [None],
    not the number of entries it removed. *)
Lemma clear_does_not_return_count :
  (clear one_entry).1 = Ok VNone ∧ (clear one_entry).1 ≠ Ok (VInt (len one_entry)).
Proof. split; [reflexivity | discriminate]. Qed.

(** C4, as the code has it. [Cache.clear] removes all entries and returns
    [None]; the count is taken by its caller: [handle_cache_clear] reads
    [len(gist_cache.cache)] before the call and reports exactly that
    count as [entries_removed], leaving an empty cache and the objects of
    the store untouched. After either, [get_stats] reports
    [total_entries = 0]. *)
Theorem clear_empties (c : Cache) (s : server) (now : Q) :
  (clear c = (Ok VNone, {| cache := ∅; ttl := ttl c |}) ∧
   ∃ st, get_stats now (clear c).2 = (Ok st, (clear c).2) ∧ total_entries st = 0) ∧
  (handle_cache_clear s =
     (Ok {| status := 200; content_type := "application/json";
            x_cache_status := None;
            payload := BodyCleared (Z.of_nat (size (cache (gist_cache s)))) |},
      {| heap := heap s;
         gist_cache := {| cache := ∅; ttl := ttl (gist_cache s) |} |}) ∧
   ∃ st, get_stats now (gist_cache (handle_cache_clear s).2)
         = (Ok st, gist_cache (handle_cache_clear s).2) ∧
         total_entries st = 0).
Proof.
  split; (split; [reflexivity|]).
  - eexists. split; [apply get_stats_eq|]. reflexivity.
  - eexists. split; [apply get_stats_eq|]. reflexivity.
Qed.


(** The clock has to move forward for that: a reading taken before the
    insertion gives a negative age, which is below a ttl of 0. *)
Example nonpositive_ttl_clock_set_back :
  get (-1) "u:page1" one_entry_ttl0 = (Ok (VStr "gists"), one_entry_ttl0).
Proof. vm_compute. reflexivity. Qed.


(** C6. [remove(k)] never raises. When [k] is not stored it leaves the
    cache exactly as it was; when [k] is stored it deletes the entry of
    [k] and no other: every other key keeps its entry, and the ttl is
    kept. *)
Theorem remove_safe (c : Cache) (k : string) :
  ∃ c', remove k c = (Ok VNone, c') ∧
    (cache c !! k = None → c' = c) ∧
    cache c' = delete k (cache c) ∧
    cache c' !! k = None ∧
    (∀ k', k' ≠ k → cache c' !! k' = cache c !! k') ∧
    ttl c' = ttl c.
Proof.
  destruct (cache c !! k) as [e|] eqn:Hk.
  - exists (with_cache (delete k) c). split; [by eapply remove_present|].
    simpl. split_and!; try done.
    + apply lookup_delete_eq.
    + intros k' Hne. by apply lookup_delete_ne.
  - exists c. split; [by apply remove_absent|].
    split_and!; try done.
    by rewrite delete_id.
Qed.

Lemma remove_safe_witness :
  remove "other" one_entry = (Ok VNone, one_entry) ∧
  ∃ c', remove "u:page1" one_entry = (Ok VNone, c') ∧ cache c' !! "u:page1" = None.
Proof.
  split.
  - destruct (remove_safe one_entry "other") as (c' & Hrm & Hsame & _).
    rewrite Hrm. rewrite Hsame; reflexivity.
  - destruct (remove_safe one_entry "u:page1") as (c' & Hrm & _ & _ & Hgone & _).
    exists c'. split; assumption.
Defined.

(** ** The cache key *)

Lemma append_nil (b : string) : "" +:+ b = b.
Proof. reflexivity. Qed.

Lemma append_cons (x : ascii) (a b : string) : String x a +:+ b = String x (a +:+ b).
Proof. reflexivity. Qed.

Lemma append_assoc (a b c : string) : (a +:+ b) +:+ c = a +:+ (b +:+ c).
Proof.
  induction a as [|x a IH]; rewrite ?append_nil, ?append_cons; [done | by f_equal].
Qed.

Lemma occurs_append c a b : occurs c (a +:+ b) ↔ occurs c a ∨ occurs c b.
Proof.
  induction a as [|x a IH]; rewrite ?append_nil, ?append_cons; simpl;
    [tauto | rewrite IH; tauto].
Qed.

(** Cutting a string at its last occurrence of [c] is unambiguous. *)
Lemma cut_at_last c (a b x y : string) :
  ¬ occurs c x → ¬ occurs c y →
  a +:+ String c x = b +:+ String c y → a = b ∧ x = y.
Proof.
  intros Hx Hy. revert b.
  induction a as [|h a IH]; intros [|h' b] Heq;
    rewrite ?append_nil, ?append_cons in Heq.
  - by injection Heq as ->.
  - injection Heq as <- ->. destruct Hx. apply occurs_append. right. by left.
  - injection Heq as -> <-. destruct Hy. apply occurs_append. right. by left.
  - injection Heq as -> Heq. apply IH in Heq as [-> ->]. done.
Qed.

Lemma pretty_N_char_not_colon (x : N) : pretty_N_char x ≠ ":"%char.
Proof. unfold pretty_N_char. by repeat case_match. Qed.

Lemma pretty_N_go_no_colon (x : N) (s : string) :
  ¬ occurs ":" s → ¬ occurs ":" (pretty_N_go x s).
Proof.
  revert s. induction (N.lt_wf_0 x) as [x _ IH]; intros s Hs.
  destruct (decide (x = 0%N)) as [->|Hx].
  - by rewrite pretty_N_go_0.
  - rewrite pretty_N_go_step by lia. apply IH.
    + apply N.div_lt; lia.
    + simpl. intros [H|H]; [by apply pretty_N_char_not_colon in H | done].
Qed.

Lemma pretty_N_no_colon (x : N) : ¬ occurs ":" (pretty x).
Proof.
  unfold pretty, pretty_N. case_decide.
  - simpl. intros [Hc|[]]. discriminate.
  - apply pretty_N_go_no_colon. simpl. tauto.
Qed.

(** The decimal form of an integer holds no colon. *)
Lemma pretty_Z_no_colon (z : Z) : ¬ occurs ":" (pretty z).
Proof.
  destruct z as [|p|p]; unfold pretty, pretty_Z.
  - simpl. intros [Hc|[]]. discriminate.
  - apply pretty_N_no_colon.
  - rewrite occurs_append. intros [Hc|Hc].
    + simpl in Hc. destruct Hc as [Hc|[]]. discriminate.
    + by apply pretty_N_no_colon in Hc.
Qed.

(** [get_pagination_params] only returns pages and page sizes between 1
    and 100. *)
Lemma get_pagination_params_range int params :
  1 <= (get_pagination_params int params).1 <= 100 ∧
  1 <= (get_pagination_params int params).2 <= 100.
Proof.
  unfold get_pagination_params.
  destruct (int _) as [page|]; [|simpl; lia].
  destruct (int _) as [per_page|]; simpl; lia.
Qed.

(** C7. The cache key determines the triple it is made of: two requests
    with the same username, page and page size have the same key, and
    two triples that differ in a component have different keys. *)
Theorem cache_key_injective (u1 u2 : string) (page1 per_page1 page2 per_page2 : Z) :
  cache_key u1 page1 per_page1 = cache_key u2 page2 per_page2 ↔
  (u1, page1, per_page1) = (u2, page2, per_page2).
Proof.
  split; [|by intros [= -> -> ->]].
  unfold cache_key. intros Heq.
  assert (∀ (u : string) (p q : Z), u +:+ ":page" +:+ pretty p +:+ ":per_page" +:+ pretty q
            = (u +:+ ":page" +:+ pretty p) +:+ String ":" ("per_page" +:+ pretty q))
    as Hshape.
  { intros u p q. by rewrite !append_assoc. }
  rewrite !Hshape in Heq. clear Hshape.
  assert (∀ q : Z, ¬ occurs ":" ("per_page" +:+ pretty q)) as Hq.
  { intros q. rewrite occurs_append. intros [H|H].
    - simpl in H. intuition discriminate.
    - by apply pretty_Z_no_colon in H. }
  apply cut_at_last in Heq as [Hleft Hright]; [|apply Hq..].
  apply (inj (String.app "per_page")), (inj pretty) in Hright.
  assert (∀ p : Z, ¬ occurs ":" ("page" +:+ pretty p)) as Hp.
  { intros p. rewrite occurs_append. intros [H|H].
    - simpl in H. intuition discriminate.
    - by apply pretty_Z_no_colon in H. }
  change (u1 +:+ String ":" ("page" +:+ pretty page1)
          = u2 +:+ String ":" ("page" +:+ pretty page2)) in Hleft.
  apply cut_at_last in Hleft as [Hu Hpage]; [|apply Hp..].
  apply (inj (String.app "page")), (inj pretty) in Hpage.
  by subst.
Qed.

Example cache_key_octocat :
  cache_key "octocat" 1 30 = "octocat:page1:per_page30".
Proof. reflexivity. Qed.

(** ** The router *)

Section Preserves.
Context {A B : Type} (P : server → Prop).

Lemma preserves_ret (a : A) : preserves P (mret a).
Proof. by intros s. Qed.

Lemma preserves_gets (f : server → A) : preserves P (gets f).
Proof. by intros s. Qed.

Lemma preserves_bind (m : M server A) (f : A → M server B) :
  preserves P m → (∀ a, preserves P (f a)) → preserves P (m ≫= f).
Proof.
  intros Hm Hf s Hs. unfold mbind, M_bind.
  specialize (Hm s Hs). destruct (m s) as [[a|e] s']; simpl in *; [|done].
  by apply Hf.
Qed.

Lemma preserves_subscript (v : pyval) (key : string) :
  preserves P (subscript v key).
Proof.
  intros s Hs. unfold subscript.
  destruct v; try done. by destruct (_ !! key).
Qed.
End Preserves.

Lemma on_cache_heap {A} (m : M Cache A) (s : server) :
  heap (on_cache m s).2 = heap s.
Proof. unfold on_cache. by destruct (m (gist_cache s)). Qed.

Lemma marked_on_cache {A} v (m : M Cache A) : preserves (marked v) (on_cache m).
Proof. intros s Hs. unfold marked. by rewrite on_cache_heap. Qed.

(** A key read in the store belongs to an allocated object. *)
Lemma lookup_total_Some_dom (h : heap_t) (l : loc) (key : string) (x : pyval) :
  (h !!! l) !! key = Some x → l ∈ dom h.
Proof.
  intros H. apply elem_of_dom. rewrite lookup_total_alt in H.
  destruct (h !! l); [eauto|]. simpl in H. by rewrite lookup_empty in H.
Qed.

Lemma read_hit_alloc (h : heap_t) (l' : loc) (d : pydict) (v x : pyval) :
  l' ∉ dom h → read_hit h v = Some x → read_hit (<[l' := d]> h) v = Some x.
Proof.
  intros Hfresh. unfold read_hit. destruct v as [| | | | |l]; try done.
  destruct ((h !!! l) !! "cache") as [[| | | | |l2]|] eqn:Hc; try done.
  intros Hh.
  assert (l ≠ l') as Hl by (intros ->; by apply lookup_total_Some_dom in Hc).
  assert (l2 ≠ l') as Hl2 by (intros ->; by apply lookup_total_Some_dom in Hh).
  rewrite lookup_total_insert_ne by done. rewrite Hc.
  by rewrite lookup_total_insert_ne.
Qed.

Lemma marked_new_dict v (d : pydict) : preserves (marked v) (new_dict d).
Proof.
  intros s Hs. unfold marked, new_dict in *. simpl.
  apply read_hit_alloc; [|done]. apply is_fresh.
Qed.

Lemma read_hit_store (h : heap_t) (l3 : loc) (v : pyval) :
  read_hit h v = Some (VBool true) →
  read_hit (<[l3 := <["hit" := VBool true]> (h !!! l3)]> h) v = Some (VBool true).
Proof.
  unfold read_hit. destruct v as [| | | | |l]; try done.
  destruct ((h !!! l) !! "cache") as [[| | | | |l2]|] eqn:Hc; try done.
  intros Hh.
  assert ((<[l3 := <["hit" := VBool true]> (h !!! l3)]> h !!! l) !! "cache"
          = Some (VDict l2)) as ->.
  { destruct (decide (l3 = l)) as [->|Hne].
    - rewrite lookup_total_insert_eq. by rewrite lookup_insert_ne.
    - by rewrite lookup_total_insert_ne. }
  destruct (decide (l3 = l2)) as [->|Hne].
  - rewrite lookup_total_insert_eq. apply lookup_insert_eq.
  - by rewrite lookup_total_insert_ne.
Qed.

Lemma marked_store_hit v c : preserves (marked v) (store_subscript c "hit" (VBool true)).
Proof.
  intros s Hs. unfold marked, store_subscript in *.
  destruct c; try done. simpl. by apply read_hit_store.
Qed.

Lemma marked_send_cached_response v cached_data :
  preserves (marked v) (send_cached_response cached_data).
Proof.
  unfold send_cached_response.
  apply preserves_bind; [apply preserves_subscript|]. intros c.
  apply preserves_bind; [apply marked_store_hit|]. intros _.
  apply preserves_ret.
Qed.

Lemma marked_fetch_and_store v username page per_page key now up :
  preserves (marked v) (fetch_and_store username page per_page key now up).
Proof.
  unfold fetch_and_store, handle_http_error, handle_server_error.
  destruct up as [gist_list rate_remaining reset_at|code|].
  - repeat (apply preserves_bind;
            [first [apply marked_new_dict | apply marked_on_cache]|intros ?]).
    apply preserves_ret.
  - case_decide; apply preserves_ret.
  - apply preserves_ret.
Qed.

Lemma marked_do_GET int v username params now_get now_set up :
  preserves (marked v) (do_GET int username params now_get now_set up).
Proof.
  unfold do_GET, handle_root, handle_cache_stats, handle_cache_clear.
  case_bool_decide; [apply preserves_ret|].
  case_bool_decide.
  { apply preserves_bind; [apply marked_on_cache|]. intros ?. apply preserves_ret. }
  destruct (String.prefix _ _).
  { repeat (apply preserves_bind; [apply marked_on_cache|intros ?]).
    apply preserves_ret. }
  destruct (get_pagination_params int params) as [page per_page].
  apply preserves_bind.
  - destruct (negb _); [|apply preserves_ret].
    apply preserves_bind; [apply marked_on_cache|]. intros cached_data.
    apply preserves_bind; [apply preserves_gets|]. intros [|]; [|apply preserves_ret].
    apply preserves_bind; [apply marked_send_cached_response|]. intros r.
    apply preserves_ret.
  - intros [r|]; [apply preserves_ret | apply marked_fetch_and_store].
Qed.

(** Once an object is marked, it stays marked through every later
    request. *)
Lemma marked_run int v (rs : list (request)) (s : server) :
  marked v s → marked v (run int rs s).
Proof.
  revert s. induction rs as [|r rs IH]; intros s Hs; [done|].
  simpl. apply IH. unfold serve. by apply marked_do_GET.
Qed.

Lemma on_cache_get_valid now key (s : server) value timestamp :
  cache (gist_cache s) !! key = Some (value, timestamp) →
  (now - timestamp < ttl (gist_cache s))%Q →
  on_cache (get now key) s = (Ok value, s).
Proof.
  intros Hk Hage. unfold on_cache.
  rewrite (get_valid now key _ value timestamp) by done. by destruct s.
Qed.

Lemma on_cache_get_absent now key (s : server) :
  cache (gist_cache s) !! key = None →
  on_cache (get now key) s = (Ok VNone, s).
Proof.
  intros Hk. unfold on_cache. rewrite get_absent by done. by destruct s.
Qed.

(** What [do_GET] does on a gist path, according to what [Cache.get]
    gives. *)
Lemma do_GET_truthy int username params now_get now_set up s v :
  gist_request username →
  String.eqb (lower (default "" (params !! "no_cache"))) "true" = false →
  on_cache (get now_get (cache_key username (get_pagination_params int params).1
                                            (get_pagination_params int params).2)) s
    = (Ok v, s) →
  truthy (heap s) v = true →
  do_GET int username params now_get now_set up s = send_cached_response v s.
Proof.
  intros (H1 & H2 & H3 & H4) Hbypass Hget Htruthy. unfold do_GET.
  rewrite bool_decide_eq_false_2 by (intros [?|?]; done).
  rewrite bool_decide_eq_false_2 by done. rewrite H4, Hbypass.
  destruct (get_pagination_params int params) as [page per_page]. simpl in *.
  unfold mbind, M_bind. rewrite Hget. unfold gets. cbn beta iota.
  rewrite Htruthy.
  by destruct (send_cached_response v s) as [[r|e] s'].
Qed.

Lemma do_GET_falsy int username params now_get now_set up s v :
  gist_request username →
  on_cache (get now_get (cache_key username (get_pagination_params int params).1
                                            (get_pagination_params int params).2)) s
    = (Ok v, s) →
  truthy (heap s) v = false →
  do_GET int username params now_get now_set up s =
  fetch_and_store username (get_pagination_params int params).1
    (get_pagination_params int params).2
    (cache_key username (get_pagination_params int params).1
                        (get_pagination_params int params).2) now_set up s.
Proof.
  intros (H1 & H2 & H3 & H4) Hget Htruthy. unfold do_GET.
  rewrite bool_decide_eq_false_2 by (intros [?|?]; done).
  rewrite bool_decide_eq_false_2 by done. rewrite H4.
  destruct (get_pagination_params int params) as [page per_page]. simpl in *.
  destruct (negb _); [|done].
  unfold mbind, M_bind. rewrite Hget. unfold gets. cbn beta iota.
  by rewrite Htruthy.
Qed.

Lemma size_lookup_ne_0 (d : pydict) (key : string) (x : pyval) :
  d !! key = Some x → size d ≠ 0%nat.
Proof.
  intros Hk Hsz. apply map_size_empty_inv in Hsz. rewrite Hsz in Hk.
  by rewrite lookup_empty in Hk.
Qed.

(** What the miss path stores under the key is a new response object,
    whose [cache] entry is a dictionary with [hit] set to [False]. *)
Lemma fetch_and_store_stores username page per_page key now gist_list
    rate_remaining reset_at (s : server) :
  ∃ l l2 s',
    fetch_and_store username page per_page key now
      (Fetched gist_list rate_remaining reset_at) s
    = (Ok {| status := 200; content_type := "application/json";
             x_cache_status := Some "MISS"; payload := BodyJson (VDict l) |}, s') ∧
    cache (gist_cache s') !! key = Some (VDict l, now) ∧
    (heap s' !!! l) !! "cache" = Some (VDict l2) ∧
    read_hit (heap s') (VDict l) = Some (VBool false).
Proof.
  unfold fetch_and_store, mbind, M_bind, new_dict, on_cache, gets, set, setitem, modify.
  cbn beta iota delta [heap gist_cache mret M_ret mbind M_bind fst snd].
  set (h1 := <[fresh (dom (heap s)) := _]> (heap s)).
  set (h2 := <[fresh (dom h1) := _]> h1).
  set (h3 := <[fresh (dom h2) := _]> h2).
  eexists _, (fresh (dom h2)), _. split; [reflexivity|].
  cbn [gist_cache heap cache with_cache].
  split; [apply lookup_insert_eq|].
  assert (fresh (dom h2) ≠ fresh (dom h3)) as Hne.
  { intros Heq. apply (is_fresh (dom h3)). rewrite <-Heq. subst h3.
    rewrite dom_insert_L. set_solver. }
  assert (∀ d : pydict, (<[fresh (dom h3) := d]> h3 !!! fresh (dom h3)) = d) as Hl
    by (intros d; apply lookup_total_insert_eq).
  unfold read_hit. rewrite !Hl.
  split; [reflexivity|].
  change (_ !! "cache") with (Some (VDict (fresh (dom h2)))). cbn beta iota.
  rewrite lookup_total_insert_ne by done.
  subst h3. rewrite lookup_total_insert_eq. reflexivity.
Qed.

(** C8. [Cache.get] returns the stored reference itself. When [do_GET]
    serves a hit for a stored response, it answers HIT with that object
    and sets its [cache.hit] to [True] in the store, the cache being left
    as it was. From then on the object stays marked through every later
    request: whenever the entry is still the one stored under its key and
    is read within its ttl, [get] returns the same reference, and its
    [cache.hit] reads [True]. *)
Theorem hit_flag_persists (int : string → option Z) (s : server)
    (username : string) (params : gmap string string) (now now_set : Q)
    (up : upstream) (l l2 : loc) (inserted_at : Q) :
  let key := cache_key username (get_pagination_params int params).1
                                (get_pagination_params int params).2 in
  gist_request username →
  String.eqb (lower (default "" (params !! "no_cache"))) "true" = false →
  cache (gist_cache s) !! key = Some (VDict l, inserted_at) →
  (now - inserted_at < ttl (gist_cache s))%Q →
  (heap s !!! l) !! "cache" = Some (VDict l2) →
  on_cache (get now key) s = (Ok (VDict l), s) ∧
  ∃ s1,
    do_GET int username params now now_set up s =
      (Ok {| status := 200; content_type := "application/json";
             x_cache_status := Some "HIT"; payload := BodyJson (VDict l) |}, s1) ∧
    gist_cache s1 = gist_cache s ∧
    read_hit (heap s1) (VDict l) = Some (VBool true) ∧
    ∀ (rs : list request) (now' : Q),
      let s' := run int rs s1 in
      read_hit (heap s') (VDict l) = Some (VBool true) ∧
      (cache (gist_cache s') !! key = Some (VDict l, inserted_at) →
       (now' - inserted_at < ttl (gist_cache s'))%Q →
       on_cache (get now' key) s' = (Ok (VDict l), s')).
Proof.
  intros key Hpath Hbypass Hk Hage Hcache.
  assert (on_cache (get now key) s = (Ok (VDict l), s)) as Hget
    by by eapply on_cache_get_valid.
  split; [done|].
  assert (truthy (heap s) (VDict l) = true) as Htruthy.
  { simpl. apply negb_true_iff, Nat.eqb_neq. by eapply size_lookup_ne_0. }
  rewrite (do_GET_truthy int username params now now_set up s (VDict l)) by done.
  unfold send_cached_response, subscript, store_subscript, mbind, M_bind.
  rewrite Hcache. cbn beta iota.
  eexists. split; [reflexivity|]. split; [done|].
  assert (read_hit (<[l2 := <["hit" := VBool true]> (heap s !!! l2)]> (heap s)) (VDict l)
          = Some (VBool true)) as Hmarked.
  { unfold read_hit.
    assert ((<[l2 := <["hit" := VBool true]> (heap s !!! l2)]> (heap s) !!! l) !! "cache"
            = Some (VDict l2)) as ->.
    { destruct (decide (l2 = l)) as [->|Hne].
      - rewrite lookup_total_insert_eq. by rewrite lookup_insert_ne.
      - by rewrite lookup_total_insert_ne. }
    rewrite lookup_total_insert_eq. apply lookup_insert_eq. }
  split; [exact Hmarked|].
  intros rs now'. split.
  - apply (marked_run int (VDict l) rs). exact Hmarked.
  - intros Hk' Hage'. by eapply on_cache_get_valid.
Qed.

Lemma hit_flag_persists_witness :
  cache (gist_cache served_once) !! "octocat:page1:per_page30"
    = Some (VDict 4%positive, 1%Q) ∧
  read_hit (heap served_once) (VDict 4%positive) = Some (VBool false) ∧
  ∃ s1,
    do_GET int_example "octocat" ∅ 100 101 OtherException served_once =
      (Ok {| status := 200; content_type := "application/json";
             x_cache_status := Some "HIT";
             payload := BodyJson (VDict 4%positive) |}, s1) ∧
    read_hit (heap s1) (VDict 4%positive) = Some (VBool true) ∧
    read_hit (heap (run int_example
                [mkRequest "cache" ∅ 150 150 OtherException;
                 mkRequest "hubot" ∅ 160 161 (Fetched [] VNone VNone);
                 mkRequest "octocat" ∅ 200 201 OtherException] s1))
             (VDict 4%positive) = Some (VBool true).
Proof.
  split; [vm_compute; reflexivity|]. split; [vm_compute; reflexivity|].
  destruct (hit_flag_persists int_example served_once "octocat" ∅ 100 101
              OtherException 4%positive 3%positive 1%Q)
    as [_ (s1 & Hserved & _ & Hmarked & Hlater)].
  - unfold gist_request. split_and!; [discriminate..|reflexivity].
  - reflexivity.
  - vm_compute; reflexivity.
  - vm_compute; reflexivity.
  - vm_compute; reflexivity.
  - exists s1. split; [exact Hserved|]. split; [exact Hmarked|].
    apply (Hlater _ 0%Q).
Defined.

(** C9. A stored [None] reads as an absent key: after [set(k, None)],
    [get(k)] within the ttl returns [None], which is also what [get]
    returns for a key that is not stored. The router tests the value
    [get] returned for truth: [None] and an empty dictionary are false,
    and when the entry stored under the key of a request holds a value
    that is false, [do_GET] does exactly what it does when the key is
    not stored, the upstream call and the store of its result. *)
Theorem falsy_value_is_a_miss (int : string → option Z) (c : Cache) (k : string)
    (inserted_at now : Q) (s : server) (username : string)
    (params : gmap string string) (now_get now_set : Q) (up : upstream)
    (v : pyval) (timestamp : Q) :
  let page := (get_pagination_params int params).1 in
  let per_page := (get_pagination_params int params).2 in
  let key := cache_key username page per_page in
  (now - inserted_at < ttl c)%Q →
  gist_request username →
  cache (gist_cache s) !! key = Some (v, timestamp) →
  (now_get - timestamp < ttl (gist_cache s))%Q →
  truthy (heap s) v = false →
  (get now k (set inserted_at k VNone c).2 = (Ok VNone, (set inserted_at k VNone c).2) ∧
   ∀ c0, cache c0 !! k = None → get now k c0 = (Ok VNone, c0)) ∧
  (truthy (heap s) VNone = false ∧
   ∀ l, heap s !! l = Some ∅ → truthy (heap s) (VDict l) = false) ∧
  do_GET int username params now_get now_set up s
    = fetch_and_store username page per_page key now_set up s ∧
  ∀ s0, cache (gist_cache s0) !! key = None →
    do_GET int username params now_get now_set up s0
    = fetch_and_store username page per_page key now_set up s0.
Proof.
  intros page per_page key Hage Hpath Hk Hage' Hfalsy. split_and!.
  - by apply get_after_set.
  - intros c0 Hc0. by apply get_absent.
  - done.
  - intros l Hl. simpl. by rewrite (lookup_total_correct _ _ _ Hl).
  - apply (do_GET_falsy int username params now_get now_set up s v); [done| |done].
    by eapply on_cache_get_valid.
  - intros s0 Hs0.
    apply (do_GET_falsy int username params now_get now_set up s0 VNone); [done| |done].
    by apply on_cache_get_absent.
Qed.

Lemma falsy_value_is_a_miss_witness :
  gist_request "octocat" ∧
  cache (gist_cache none_stored) !! "octocat:page1:per_page30" = Some (VNone, 0%Q) ∧
  get 100 "k" (set 0 "k" VNone (Cache_init 300)).2
    = (Ok VNone, (set 0 "k" VNone (Cache_init 300)).2) ∧
  do_GET int_example "octocat" ∅ 100 101 (HTTPError 404) none_stored
    = fetch_and_store "octocat" 1 30 "octocat:page1:per_page30" 101 (HTTPError 404)
        none_stored.
Proof.
  assert (gist_request "octocat") as Hpath.
  { unfold gist_request. split_and!; [discriminate..|reflexivity]. }
  split; [exact Hpath|]. split; [vm_compute; reflexivity|].
  destruct (falsy_value_is_a_miss int_example (Cache_init 300) "k" 0 100
              none_stored "octocat" ∅ 100 101 (HTTPError 404) VNone 0)
    as [[Hget _] [_ [Hmiss _]]].
  - vm_compute; reflexivity.
  - exact Hpath.
  - vm_compute; reflexivity.
  - vm_compute; reflexivity.
  - reflexivity.
  - split; [exact Hget | exact Hmiss].
Defined.

(** * Further properties *)

(** ** The cache, method by method *)

Lemma get_result_lookup now k c1 c2 :
  cache c1 !! k = cache c2 !! k → ttl c1 = ttl c2 →
  (get now k c1).1 = (get now k c2).1.
Proof.
  intros Hk Httl.
  destruct (cache c2 !! k) as [[v ts]|] eqn:H2.
  - destruct (decide (now - ts < ttl c2)%Q) as [Hage|Hage].
    + rewrite (get_valid now k c2 v ts) by done.
      rewrite (get_valid now k c1 v ts); [done..|by rewrite Httl].
    + apply Qnot_lt_iff_le in Hage.
      rewrite (get_expired now k c2 v ts) by done.
      rewrite (get_expired now k c1 v ts); [done..|by rewrite Httl].
  - by rewrite !get_absent.
Qed.

Lemma get_cases (now : Q) (k : string) (c : Cache) :
  ∃ v c', get now k c = (Ok v, c') ∧
    ttl c' = ttl c ∧
    (∀ k', k' ≠ k → cache c' !! k' = cache c !! k') ∧
    cache c' ⊆ cache c ∧
    ((v = VNone ∧ (c' = c ∨ cache c' = delete k (cache c))) ∨
     (∃ ts, cache c !! k = Some (v, ts) ∧ (now - ts < ttl c)%Q ∧ c' = c)).
Proof.
  destruct (cache c !! k) as [[v ts]|] eqn:Hk.
  - destruct (decide (now - ts < ttl c)%Q) as [Hage|Hage].
    + exists v, c. split; [by eapply get_valid|]. split_and!; try done.
      right. by exists ts.
    + apply Qnot_lt_iff_le in Hage.
      exists VNone, (with_cache (delete k) c).
      split; [by eapply get_expired|]. simpl. split_and!; try done.
      * intros k' Hne. by apply lookup_delete_ne.
      * apply delete_subseteq.
      * left. split; [done|]. by right.
  - exists VNone, c. split; [by apply get_absent|]. split_and!; try done.
    left. split; [done|]. by left.
Qed.

(** X1. [get] never raises and is a read of one key: it returns [None]
    or the value stored under the key, which is then of age < ttl and
    left in place; it keeps the ttl and the entry of every other key,
    and never adds an entry. *)
Theorem get_reads_one_key (now : Q) (k : string) (c : Cache) :
  ∃ v c', get now k c = (Ok v, c') ∧
    ttl c' = ttl c ∧
    (∀ k', k' ≠ k → cache c' !! k' = cache c !! k') ∧
    cache c' ⊆ cache c ∧
    ((v = VNone ∧ (c' = c ∨ cache c' = delete k (cache c))) ∨
     (∃ ts, cache c !! k = Some (v, ts) ∧ (now - ts < ttl c)%Q ∧ c' = c)).
Proof. apply get_cases. Qed.

(** X2. Reading a key twice at the same clock reading gives the same
    answer twice, and the second read changes nothing. *)
Theorem get_twice (now : Q) (k : string) (c : Cache) :
  get now k (get now k c).2 = ((get now k c).1, (get now k c).2).
Proof.
  destruct (cache c !! k) as [[v ts]|] eqn:Hk.
  - destruct (decide (now - ts < ttl c)%Q) as [Hage|Hage].
    + rewrite (get_valid now k c v ts) by done. simpl.
      by apply (get_valid now k c v ts).
    + apply Qnot_lt_iff_le in Hage.
      rewrite (get_expired now k c v ts) by done. simpl.
      apply get_absent. simpl. apply lookup_delete_eq.
  - rewrite (get_absent now k c) by done. simpl. by apply get_absent.
Qed.

(** X3. [get] and [get_stats] agree on what is valid: after [get(k)] the
    key is still stored exactly when [get_stats], at the same clock
    reading, counts its entry among the valid ones. *)
Theorem get_keeps_what_stats_counts_valid (now : Q) (k : string) (c : Cache) :
  is_Some (cache (get now k c).2 !! k) ↔ is_Some (valid_part now c !! k).
Proof.
  destruct (cache c !! k) as [[v ts]|] eqn:Hk.
  - destruct (decide (now - ts < ttl c)%Q) as [Hage|Hage].
    + rewrite (get_valid now k c v ts) by done. simpl. rewrite Hk.
      assert (valid_part now c !! k = Some (v, ts)) as ->
        by by apply valid_part_lookup.
      done.
    + apply Qnot_lt_iff_le in Hage.
      rewrite (get_expired now k c v ts) by done. simpl.
      rewrite lookup_delete_eq, (valid_part_expired now c k v ts) by done.
      done.
  - rewrite (get_absent now k c) by done. simpl. rewrite Hk.
    assert (valid_part now c !! k = None) as ->; [|done].
    unfold valid_part. apply map_lookup_filter_None_2. by left.
Qed.

(** X4. [set] writes one key: it never raises, keeps the ttl and the
    entry of every other key, so that a read of another key answers as
    before, and the number of entries grows by one for a new key and is
    unchanged for a key already stored: nothing is evicted. *)
Theorem set_writes_one_key (t : Q) (k : string) (v : pyval) (c : Cache) :
  ∃ c', set t k v c = (Ok VNone, c') ∧
    ttl c' = ttl c ∧
    cache c' !! k = Some (v, t) ∧
    (∀ k', k' ≠ k → cache c' !! k' = cache c !! k') ∧
    (∀ k' now, k' ≠ k → (get now k' c').1 = (get now k' c).1) ∧
    size (cache c') =
      match cache c !! k with Some _ => size (cache c) | None => S (size (cache c)) end.
Proof.
  exists (with_cache (insert k (v, t)) c). split; [apply set_eq|]. simpl.
  split_and!; try done.
  - apply lookup_insert_eq.
  - intros k' Hne. by apply lookup_insert_ne.
  - intros k' now Hne. apply get_result_lookup; [|done].
    simpl. by apply lookup_insert_ne.
  - destruct (cache c !! k) eqn:Hk.
    + by apply map_size_insert_Some.
    + by apply map_size_insert_None.
Qed.

(** X5. The last write wins: after two calls of [set] on one key, a read
    within the ttl of the second call returns the second value, whatever
    the first call stored and whenever it did; the key holds one entry. *)
Theorem last_set_wins (c : Cache) (k : string) (v1 v2 : pyval) (t1 t2 now : Q) :
  (now - t2 < ttl c)%Q →
  let c2 := (set t2 k v2 (set t1 k v1 c).2).2 in
  get now k c2 = (Ok v2, c2) ∧
  c2 = (set t2 k v2 c).2 ∧
  size (cache c2) = size (cache (set t1 k v1 c).2).
Proof.
  intros Hage c2.
  assert (c2 = (set t2 k v2 c).2) as Heq.
  { subst c2. rewrite !set_eq. unfold with_cache. simpl. f_equal.
    apply insert_insert_eq. }
  split_and!; [|done|].
  - rewrite Heq. by apply get_after_set.
  - subst c2. rewrite !set_eq. simpl.
    apply map_size_insert_Some. rewrite lookup_insert_eq. eauto.
Qed.

Lemma last_set_wins_witness :
  (450 - 200 < ttl one_entry)%Q ∧
  let c2 := (set 200 "u:page1" (VStr "new") (set 100 "u:page1" (VStr "old") one_entry).2).2 in
  get 450 "u:page1" c2 = (Ok (VStr "new"), c2).
Proof.
  split; [vm_compute; reflexivity|].
  apply (last_set_wins one_entry "u:page1" (VStr "old") (VStr "new") 100 200 450).
  vm_compute; reflexivity.
Defined.

(** X6. After [remove(k)] a read of [k] returns [None] at every clock
    reading and changes nothing, and a second [remove(k)] changes
    nothing either. *)
Theorem remove_then_get (now : Q) (k : string) (c : Cache) :
  get now k (remove k c).2 = (Ok VNone, (remove k c).2) ∧
  remove k (remove k c).2 = (Ok VNone, (remove k c).2).
Proof.
  assert (cache (remove k c).2 !! k = None) as Hgone.
  { destruct (cache c !! k) as [e|] eqn:Hk.
    - rewrite (remove_present k c e) by done. simpl. apply lookup_delete_eq.
    - by rewrite remove_absent. }
  split; [by apply get_absent | by apply remove_absent].
Qed.

(** X7. [clear] brings the cache back to the state it was built in, with
    the same ttl: every read then returns [None], and clearing again
    changes nothing. *)
Theorem clear_resets (now : Q) (k : string) (c : Cache) :
  (clear c).2 = Cache_init (ttl c) ∧
  get now k (clear c).2 = (Ok VNone, (clear c).2) ∧
  clear (clear c).2 = clear c.
Proof.
  split_and!; [done| |done].
  apply get_absent. simpl. apply lookup_empty.
Qed.

(** ** The statistics over time *)

Lemma size_lookup_ne_0' {A} (m : gmap string A) (k : string) (x : A) :
  m !! k = Some x → size m ≠ 0%nat.
Proof.
  intros Hk Hsz. apply map_size_empty_inv in Hsz. rewrite Hsz in Hk.
  by rewrite lookup_empty in Hk.
Qed.

Lemma valid_part_mono now now' c :
  (now <= now')%Q → valid_part now' c ⊆ valid_part now c.
Proof.
  intros Hle. unfold valid_part. apply map_filter_subseteq_ext.
  intros k [v ts] _. simpl. intros Hage. lra.
Qed.

(** X8. As the clock advances entries only expire: between two readings
    [now <= now'] of the same cache, [total_entries] is the same,
    [valid_entries] does not grow and [expired_entries] does not shrink. *)
Theorem stats_over_time (now now' : Q) (c : Cache) :
  (now <= now')%Q →
  ∃ st st', get_stats now c = (Ok st, c) ∧ get_stats now' c = (Ok st', c) ∧
    total_entries st' = total_entries st ∧
    valid_entries st' <= valid_entries st ∧
    expired_entries st <= expired_entries st'.
Proof.
  intros Hle. eexists _, _. split; [apply get_stats_eq|]. split; [apply get_stats_eq|].
  simpl. split; [done|].
  pose proof (map_subseteq_size _ _ (valid_part_mono now now' c Hle)) as Hsz.
  pose proof (size_valid_expired now c). pose proof (size_valid_expired now' c).
  lia.
Qed.

Lemma stats_over_time_witness :
  ∃ st st', get_stats 250 two_entries = (Ok st, two_entries) ∧
    get_stats 350 two_entries = (Ok st', two_entries) ∧
    valid_entries st = 2 ∧ valid_entries st' = 1 ∧
    valid_entries st' <= valid_entries st ∧
    expired_entries st <= expired_entries st'.
Proof.
  destruct (stats_over_time 250 350 two_entries) as (st & st' & H1 & H2 & _ & Hv & He).
  - vm_compute; discriminate.
  - exists st, st'. split; [exact H1|]. split; [exact H2|].
    assert (st = mkStats 2 2 0 300) as Hst.
    { assert (get_stats 250 two_entries = (Ok (mkStats 2 2 0 300), two_entries)) as H
        by (vm_compute; reflexivity).
      rewrite H in H1. by injection H1. }
    assert (st' = mkStats 2 1 1 300) as Hst'.
    { assert (get_stats 350 two_entries = (Ok (mkStats 2 1 1 300), two_entries)) as H
        by (vm_compute; reflexivity).
      rewrite H in H2. by injection H2. }
    split; [by rewrite Hst|]. split; [by rewrite Hst'|]. split; [exact Hv | exact He].
Defined.

(** X9. The read that purges a stale entry takes exactly that entry out
    of the statistics: at the same clock reading, [get_stats] after the
    [get] reports one expired entry less, one entry less in total and
    the same number of valid entries. *)
Theorem stale_get_in_stats (c : Cache) (k : string) (v : pyval) (inserted_at now : Q) :
  cache c !! k = Some (v, inserted_at) →
  (ttl c <= now - inserted_at)%Q →
  ∃ st st', get_stats now c = (Ok st, c) ∧
    get_stats now (get now k c).2 = (Ok st', (get now k c).2) ∧
    valid_entries st' = valid_entries st ∧
    expired_entries st' = expired_entries st - 1 ∧
    total_entries st' = total_entries st - 1.
Proof.
  intros Hk Hage. eexists _, _. split; [apply get_stats_eq|]. split; [apply get_stats_eq|].
  rewrite (get_expired now k c v inserted_at) by done. simpl.
  assert (valid_part now (with_cache (delete k) c) = valid_part now c) as ->.
  { unfold valid_part. simpl. rewrite map_filter_delete.
    apply delete_id. by eapply valid_part_expired. }
  assert (expired_part now (with_cache (delete k) c) = delete k (expired_part now c)) as ->.
  { unfold expired_part. simpl. apply map_filter_delete. }
  assert (expired_part now c !! k = Some (v, inserted_at)) as Hexp
    by by apply expired_part_lookup.
  rewrite !map_size_delete_Some by eauto.
  pose proof (size_lookup_ne_0' (expired_part now c) k _ Hexp).
  pose proof (size_lookup_ne_0' (cache c) k _ Hk).
  lia.
Qed.

Lemma stale_get_in_stats_witness :
  ∃ st st', get_stats 350 two_entries = (Ok st, two_entries) ∧
    get_stats 350 (get 350 "a:page1" two_entries).2
      = (Ok st', (get 350 "a:page1" two_entries).2) ∧
    valid_entries st' = valid_entries st ∧
    expired_entries st' = expired_entries st - 1 ∧
    total_entries st' = total_entries st - 1.
Proof.
  apply (stale_get_in_stats two_entries "a:page1" (VStr "first") 0 350).
  - vm_compute; reflexivity.
  - vm_compute; discriminate.
Defined.

(** X10. [get_stats] reports no expired entry exactly when every stored
    entry is of age < ttl, and no valid entry exactly when every stored
    entry is of age >= ttl. *)
Theorem stats_all_or_nothing (now : Q) (c : Cache) :
  ∃ st, get_stats now c = (Ok st, c) ∧
    (expired_entries st = 0 ↔
       ∀ k v ts, cache c !! k = Some (v, ts) → (now - ts < ttl c)%Q) ∧
    (valid_entries st = 0 ↔
       ∀ k v ts, cache c !! k = Some (v, ts) → (ttl c <= now - ts)%Q).
Proof.
  eexists. split; [apply get_stats_eq|]. simpl. split.
  - rewrite <-Nat2Z.inj_0, Nat2Z.inj_iff, map_size_empty_iff.
    unfold expired_part. rewrite map_empty_filter. split.
    + intros Hall k v ts Hk. specialize (Hall k (v, ts) Hk). simpl in Hall.
      destruct (decide (now - ts < ttl c)%Q) as [|Hn]; [done|].
      by apply Qnot_lt_iff_le in Hn.
    + intros Hall k [v ts] Hk. simpl. apply Qlt_not_le. by eapply Hall.
  - rewrite <-Nat2Z.inj_0, Nat2Z.inj_iff, map_size_empty_iff.
    unfold valid_part. rewrite map_empty_filter. split.
    + intros Hall k v ts Hk. specialize (Hall k (v, ts) Hk). simpl in Hall.
      by apply Qnot_lt_iff_le.
    + intros Hall k [v ts] Hk. simpl. apply Qle_not_lt. by eapply Hall.
Qed.

(** ** What every request keeps *)

Lemma on_cache_unchanged {A} (m : M Cache A) (s : server) :
  (m (gist_cache s)).2 = gist_cache s → (on_cache m s).2 = s.
Proof.
  unfold on_cache. destruct (m (gist_cache s)) as [r c]. simpl. intros ->.
  by destruct s.
Qed.

Section Invariant.
Context (P : server → Prop).
Hypothesis P_get : ∀ now k, preserves P (on_cache (get now k)).
Hypothesis P_set : ∀ now k v, preserves P (on_cache (set now k v)).
Hypothesis P_clear : preserves P (on_cache clear).
Hypothesis P_new : ∀ d, preserves P (new_dict d).
Hypothesis P_hit : ∀ c, preserves P (store_subscript c "hit" (VBool true)).

Lemma preserves_read_only {A} (m : M Cache A) :
  (∀ c, (m c).2 = c) → preserves P (on_cache m).
Proof. intros Hm s Hs. by rewrite on_cache_unchanged. Qed.

Lemma invariant_send_cached_response cached_data :
  preserves P (send_cached_response cached_data).
Proof.
  unfold send_cached_response.
  apply preserves_bind; [apply preserves_subscript|]. intros c.
  apply preserves_bind; [apply P_hit|]. intros _. apply preserves_ret.
Qed.

Lemma invariant_fetch_and_store username page per_page key now up :
  preserves P (fetch_and_store username page per_page key now up).
Proof.
  unfold fetch_and_store, handle_http_error, handle_server_error.
  destruct up as [gist_list rate_remaining reset_at|code|].
  - repeat (apply preserves_bind;
      [first [apply P_new | apply P_set | by apply preserves_read_only]|intros ?]).
    apply preserves_ret.
  - case_decide; apply preserves_ret.
  - apply preserves_ret.
Qed.

Lemma invariant_do_GET int username params now_get now_set up :
  preserves P (do_GET int username params now_get now_set up).
Proof.
  unfold do_GET, handle_root, handle_cache_stats, handle_cache_clear.
  case_bool_decide; [apply preserves_ret|].
  case_bool_decide.
  { apply preserves_bind; [by apply preserves_read_only|]. intros ?.
    apply preserves_ret. }
  destruct (String.prefix _ _).
  { apply preserves_bind; [by apply preserves_read_only|]. intros ?.
    apply preserves_bind; [apply P_clear|]. intros ?. apply preserves_ret. }
  destruct (get_pagination_params int params) as [page per_page].
  apply preserves_bind.
  - destruct (negb _); [|apply preserves_ret].
    apply preserves_bind; [apply P_get|]. intros cached_data.
    apply preserves_bind; [apply preserves_gets|]. intros [|]; [|apply preserves_ret].
    apply preserves_bind; [apply invariant_send_cached_response|]. intros r.
    apply preserves_ret.
  - intros [r|]; [apply preserves_ret | apply invariant_fetch_and_store].
Qed.

Lemma invariant_run int (rs : list request) (s : server) :
  P s → P (run int rs s).
Proof.
  revert s. induction rs as [|r rs IH]; intros s Hs; [done|].
  simpl. apply IH. unfold serve. by apply invariant_do_GET.
Qed.
End Invariant.

Lemma get_ttl now k c : ttl (get now k c).2 = ttl c.
Proof.
  destruct (cache c !! k) as [[v ts]|] eqn:Hk.
  - destruct (decide (now - ts < ttl c)%Q) as [Hage|Hage].
    + by rewrite (get_valid now k c v ts).
    + apply Qnot_lt_iff_le in Hage. by rewrite (get_expired now k c v ts).
  - by rewrite get_absent.
Qed.

Lemma on_cache_state {A} (m : M Cache A) (s : server) :
  gist_cache (on_cache m s).2 = (m (gist_cache s)).2.
Proof. unfold on_cache. by destruct (m (gist_cache s)). Qed.

(** X11. The ttl the cache was built with is never changed: not by a
    method of the cache, and not by any sequence of requests served by
    [do_GET], whatever they are and whether they are answered or raise. *)
Theorem ttl_is_fixed (int : string → option Z) (rs : list request) (s : server)
    (c : Cache) (now : Q) (k : string) (v : pyval) :
  ttl (get now k c).2 = ttl c ∧ ttl (set now k v c).2 = ttl c ∧
  ttl (remove k c).2 = ttl c ∧ ttl (clear c).2 = ttl c ∧
  ttl (get_stats now c).2 = ttl c ∧
  ttl (gist_cache (run int rs s)) = ttl (gist_cache s).
Proof.
  split_and!; try done.
  - apply get_ttl.
  - destruct (cache c !! k) as [e|] eqn:Hk.
    + by rewrite (remove_present k c e).
    + by rewrite remove_absent.
  - apply (invariant_run (λ s', ttl (gist_cache s') = ttl (gist_cache s))); [..|done].
    + intros now' k' s' Hs'. rewrite on_cache_state, get_ttl. done.
    + intros now' k' v' s' Hs'. by rewrite on_cache_state.
    + intros s' Hs'. by rewrite on_cache_state.
    + intros d s' Hs'. done.
    + intros c' s' Hs'. unfold store_subscript. by destruct c'.
Qed.

Lemma field_is_new_dict l key x d : preserves (field_is l key x) (new_dict d).
Proof.
  intros s Hs. unfold field_is, new_dict in *. simpl.
  rewrite lookup_total_insert_ne; [done|].
  intros <-. apply lookup_total_Some_dom in Hs. by apply is_fresh in Hs.
Qed.

Lemma field_is_store_hit l key x c :
  key ≠ "hit" → preserves (field_is l key x) (store_subscript c "hit" (VBool true)).
Proof.
  intros Hkey s Hs. unfold field_is, store_subscript in *.
  destruct c as [| | | | |l3]; try done. simpl.
  destruct (decide (l3 = l)) as [->|Hne].
  - rewrite lookup_total_insert_eq. by rewrite lookup_insert_ne.
  - by rewrite lookup_total_insert_ne.
Qed.

Lemma field_is_on_cache {A} l key x (m : M Cache A) :
  preserves (field_is l key x) (on_cache m).
Proof. intros s Hs. unfold field_is. by rewrite on_cache_heap. Qed.

Lemma field_is_do_GET int l key x username params now_get now_set up :
  key ≠ "hit" →
  preserves (field_is l key x) (do_GET int username params now_get now_set up).
Proof.
  intros Hkey. apply invariant_do_GET; intros;
    first [apply field_is_on_cache | apply field_is_new_dict
          | by apply field_is_store_hit].
Qed.

(** X12. The router writes to the dictionaries it has built in one place
    only, the [hit] entry: through any sequence of requests, a field
    other than [hit] of a dictionary of the store keeps the value it
    has, and no dictionary is dropped or replaced. *)
Theorem only_hit_is_rewritten (int : string → option Z) (rs : list request)
    (s : server) (l : loc) (key : string) (x : pyval) :
  key ≠ "hit" →
  (heap s !!! l) !! key = Some x →
  (heap (run int rs s) !!! l) !! key = Some x ∧ l ∈ dom (heap (run int rs s)).
Proof.
  intros Hkey Hx.
  assert (field_is l key x (run int rs s)) as Hrun.
  { apply invariant_run; [..|done]; intros;
      first [apply field_is_on_cache | apply field_is_new_dict
            | by apply field_is_store_hit]. }
  split; [exact Hrun|]. by eapply lookup_total_Some_dom.
Qed.

Lemma only_hit_is_rewritten_witness :
  (heap served_once !!! 4%positive) !! "username" = Some (VStr "octocat") ∧
  (heap (run int_example three_requests served_once) !!! 4%positive) !! "username"
    = Some (VStr "octocat").
Proof.
  split; [vm_compute; reflexivity|].
  apply (only_hit_is_rewritten int_example three_requests served_once 4%positive
           "username" (VStr "octocat")).
  - discriminate.
  - vm_compute; reflexivity.
Defined.

(** ** The routes of [do_GET] *)

Lemma send_cached_response_ok (s : server) (l l2 : loc) :
  (heap s !!! l) !! "cache" = Some (VDict l2) →
  send_cached_response (VDict l) s =
    (Ok {| status := 200; content_type := "application/json";
           x_cache_status := Some "HIT"; payload := BodyJson (VDict l) |},
     {| heap := <[l2 := <["hit" := VBool true]> (heap s !!! l2)]> (heap s);
        gist_cache := gist_cache s |}).
Proof.
  intros Hc. unfold send_cached_response, subscript, store_subscript, mbind, M_bind.
  by rewrite Hc.
Qed.

Lemma read_hit_after_store (h : heap_t) (l l2 : loc) :
  (h !!! l) !! "cache" = Some (VDict l2) →
  read_hit (<[l2 := <["hit" := VBool true]> (h !!! l2)]> h) (VDict l) = Some (VBool true).
Proof.
  intros Hc. unfold read_hit.
  assert ((<[l2 := <["hit" := VBool true]> (h !!! l2)]> h !!! l) !! "cache"
          = Some (VDict l2)) as ->.
  { destruct (decide (l2 = l)) as [->|Hne].
    - rewrite lookup_total_insert_eq. by rewrite lookup_insert_ne.
    - by rewrite lookup_total_insert_ne. }
  rewrite lookup_total_insert_eq. apply lookup_insert_eq.
Qed.

Lemma fetch_and_store_fetched username page per_page key now gist_list
    rate_remaining reset_at (s : server) :
  ∃ l l2 h',
    fetch_and_store username page per_page key now
      (Fetched gist_list rate_remaining reset_at) s
    = (Ok {| status := 200; content_type := "application/json";
             x_cache_status := Some "MISS"; payload := BodyJson (VDict l) |},
       {| heap := h';
          gist_cache := with_cache (insert key (VDict l, now)) (gist_cache s) |}) ∧
    (h' !!! l) !! "cache" = Some (VDict l2) ∧
    read_hit h' (VDict l) = Some (VBool false) ∧
    l ∉ dom (heap s).
Proof.
  unfold fetch_and_store, mbind, M_bind, new_dict, on_cache, gets, set, setitem, modify.
  cbn beta iota delta [heap gist_cache mret M_ret mbind M_bind fst snd].
  set (h1 := <[fresh (dom (heap s)) := _]> (heap s)).
  set (h2 := <[fresh (dom h1) := _]> h1).
  set (h3 := <[fresh (dom h2) := _]> h2).
  eexists _, (fresh (dom h2)), _. split; [reflexivity|].
  assert (fresh (dom h2) ≠ fresh (dom h3)) as Hne.
  { intros Heq. apply (is_fresh (dom h3)). rewrite <-Heq. subst h3.
    rewrite dom_insert_L. set_solver. }
  assert (∀ d : pydict, (<[fresh (dom h3) := d]> h3 !!! fresh (dom h3)) = d) as Hl
    by (intros d; apply lookup_total_insert_eq).
  unfold read_hit. rewrite !Hl.
  split; [reflexivity|]. split.
  - change (_ !! "cache") with (Some (VDict (fresh (dom h2)))). cbn beta iota.
    rewrite lookup_total_insert_ne by done.
    subst h3. rewrite lookup_total_insert_eq. reflexivity.
  - intros Hin. apply (is_fresh (dom h3)).
    assert (dom (heap s) ⊆ dom h3) as Hsub; [|by apply Hsub].
    subst h3 h2 h1. rewrite !dom_insert_L.
    intros x Hx. rewrite !elem_of_union. auto.
Qed.

Lemma fetch_and_store_failed username page per_page key now up (s : server) :
  (∀ gist_list rate_remaining reset_at, up ≠ Fetched gist_list rate_remaining reset_at) →
  ∃ r, fetch_and_store username page per_page key now up s = (Ok r, s) ∧
    x_cache_status r = None ∧
    status r = match up with HTTPError code => code | _ => 500 end.
Proof.
  intros Hup. destruct up as [gist_list rate_remaining reset_at|code|]; simpl.
  - by destruct (Hup gist_list rate_remaining reset_at).
  - unfold handle_http_error. case_decide; subst;
      (eexists; split; [reflexivity|]; split; reflexivity).
  - eexists; split; [reflexivity|]; split; reflexivity.
Qed.

(** The routes of [do_GET], as equations. *)
Lemma do_GET_bypass int username params now_get now_set up s :
  gist_request username →
  String.eqb (lower (default "" (params !! "no_cache"))) "true" = true →
  do_GET int username params now_get now_set up s =
  fetch_and_store username (get_pagination_params int params).1
    (get_pagination_params int params).2
    (cache_key username (get_pagination_params int params).1
                        (get_pagination_params int params).2) now_set up s.
Proof.
  intros (H1 & H2 & H3 & H4) Hbypass. unfold do_GET.
  rewrite bool_decide_eq_false_2 by (intros [?|?]; done).
  rewrite bool_decide_eq_false_2 by done. rewrite H4, Hbypass.
  by destruct (get_pagination_params int params) as [page per_page].
Qed.

Lemma do_GET_after_get int username params now_get now_set up s v s1 :
  gist_request username →
  String.eqb (lower (default "" (params !! "no_cache"))) "true" = false →
  on_cache (get now_get (cache_key username (get_pagination_params int params).1
                                            (get_pagination_params int params).2)) s
    = (Ok v, s1) →
  do_GET int username params now_get now_set up s =
  if truthy (heap s1) v then send_cached_response v s1
  else fetch_and_store username (get_pagination_params int params).1
         (get_pagination_params int params).2
         (cache_key username (get_pagination_params int params).1
                             (get_pagination_params int params).2) now_set up s1.
Proof.
  intros (H1 & H2 & H3 & H4) Hbypass Hget. unfold do_GET.
  rewrite bool_decide_eq_false_2 by (intros [?|?]; done).
  rewrite bool_decide_eq_false_2 by done. rewrite H4, Hbypass.
  destruct (get_pagination_params int params) as [page per_page]. simpl in *.
  unfold mbind, M_bind. rewrite Hget. unfold gets. cbn beta iota.
  destruct (truthy (heap s1) v); [|done].
  by destruct (send_cached_response v s1) as [[r|e] s'].
Qed.

Lemma on_cache_get_expired now key (s : server) value timestamp :
  cache (gist_cache s) !! key = Some (value, timestamp) →
  (ttl (gist_cache s) <= now - timestamp)%Q →
  on_cache (get now key) s =
    (Ok VNone, {| heap := heap s; gist_cache := with_cache (delete key) (gist_cache s) |}).
Proof.
  intros Hk Hage. unfold on_cache.
  by rewrite (get_expired now key _ value timestamp).
Qed.


Lemma do_GET_stats int params now_get now_set up s :
  do_GET int "cache" params now_get now_set up s = handle_cache_stats now_get s.
Proof. reflexivity. Qed.

Lemma prefix_append (a b : string) : String.prefix a (a +:+ b) = true.
Proof.
  induction a as [|x a IH]; [by destruct b|].
  rewrite append_cons. simpl. by destruct (ascii_dec x x).
Qed.

Lemma do_GET_clear int username params now_get now_set up s :
  String.prefix "cache/clear" username = true →
  do_GET int username params now_get now_set up s = handle_cache_clear s.
Proof.
  intros Hp. unfold do_GET.
  rewrite bool_decide_eq_false_2 by (intros [->| ->]; discriminate).
  rewrite bool_decide_eq_false_2 by (intros ->; discriminate).
  by rewrite Hp.
Qed.







(** X14. With [no_cache] equal to [true] in any letter case, [do_GET]
    does not read the cache: it does what the miss path does in the
    store as it is, and when the upstream call succeeds the entry of the
    key is replaced by a new response object, not marked as a hit, even
    if a valid entry was stored. *)
Theorem no_cache_bypasses (int : string → option Z) (s : server) (username : string)
    (params : gmap string string) (now_get now_set : Q) (up : upstream) :
  let page := (get_pagination_params int params).1 in
  let per_page := (get_pagination_params int params).2 in
  let key := cache_key username page per_page in
  gist_request username →
  String.eqb (lower (default "" (params !! "no_cache"))) "true" = true →
  do_GET int username params now_get now_set up s
    = fetch_and_store username page per_page key now_set up s ∧
  ∀ gist_list rate_remaining reset_at, ∃ l s',
    do_GET int username params now_get now_set
      (Fetched gist_list rate_remaining reset_at) s
    = (Ok {| status := 200; content_type := "application/json";
             x_cache_status := Some "MISS"; payload := BodyJson (VDict l) |}, s') ∧
    cache (gist_cache s') !! key = Some (VDict l, now_set) ∧
    (l ∉ dom (heap s)) ∧
    read_hit (heap s') (VDict l) = Some (VBool false).
Proof.
  intros page per_page key Hpath Hbypass.
  split; [by apply do_GET_bypass|].
  intros gist_list rate_remaining reset_at.
  rewrite do_GET_bypass by done.
  destruct (fetch_and_store_fetched username page per_page key now_set gist_list
              rate_remaining reset_at s) as (l & l2 & h' & Heq & _ & Hhit & Hfresh).
  eexists l, _. split; [exact Heq|]. simpl.
  split; [apply lookup_insert_eq|]. done.
Qed.

Lemma no_cache_bypasses_witness :
  cache (gist_cache served_once) !! "octocat:page1:per_page30"
    = Some (VDict 4%positive, 1%Q) ∧
  ∃ l s',
    do_GET int_example "octocat" no_cache_query 100 101 (Fetched [] VNone VNone)
      served_once
    = (Ok {| status := 200; content_type := "application/json";
             x_cache_status := Some "MISS"; payload := BodyJson (VDict l) |}, s') ∧
    cache (gist_cache s') !! "octocat:page1:per_page30" = Some (VDict l, 101%Q) ∧
    l ∉ dom (heap served_once).
Proof.
  split; [vm_compute; reflexivity|].
  destruct (no_cache_bypasses int_example served_once "octocat" no_cache_query
              100 101 OtherException) as [_ Hfetched].
  - unfold gist_request. split_and!; [discriminate..|reflexivity].
  - reflexivity.
  - destruct (Hfetched [] VNone VNone) as (l & s' & Heq & Hk & Hfresh & _).
    exists l, s'. split; [exact Heq|]. split; [exact Hk | exact Hfresh].
Defined.

(** X15. A failure of the upstream call is answered and not cached: when
    the key of the request is not stored and the upstream call fails,
    [do_GET] answers with the upstream status code (404 as 404, any
    other code as it is, 500 for another exception), without a cache
    header, and leaves the store exactly as it was. *)
Theorem upstream_failure_not_cached (int : string → option Z) (s : server)
    (username : string) (params : gmap string string) (now_get now_set : Q)
    (up : upstream) :
  gist_request username →
  cache (gist_cache s) !! cache_key username (get_pagination_params int params).1
                            (get_pagination_params int params).2 = None →
  (∀ gist_list rate_remaining reset_at, up ≠ Fetched gist_list rate_remaining reset_at) →
  ∃ r, do_GET int username params now_get now_set up s = (Ok r, s) ∧
    status r = match up with HTTPError code => code | _ => 500 end ∧
    x_cache_status r = None.
Proof.
  intros Hpath Hk Hup.
  destruct (fetch_and_store_failed username (get_pagination_params int params).1
              (get_pagination_params int params).2
              (cache_key username (get_pagination_params int params).1
                 (get_pagination_params int params).2) now_set up s Hup)
    as (r & Heq & Hnone & Hstatus).
  exists r. split; [|done].
  destruct (String.eqb (lower (default "" (params !! "no_cache"))) "true") eqn:Hb.
  - by rewrite do_GET_bypass.
  - rewrite (do_GET_after_get int username params now_get now_set up s VNone s);
      [done..|]. by apply on_cache_get_absent.
Qed.

Lemma upstream_failure_not_cached_witness :
  ∃ r, do_GET int_example "ghost" ∅ 100 101 (HTTPError 404) served_once
       = (Ok r, served_once) ∧ status r = 404 ∧ x_cache_status r = None.
Proof.
  apply (upstream_failure_not_cached int_example served_once "ghost" ∅ 100 101
           (HTTPError 404)).
  - unfold gist_request. split_and!; [discriminate..|reflexivity].
  - vm_compute; reflexivity.
  - discriminate.
Defined.

(** X16. A request whose entry has expired is a miss: [do_GET] deletes
    the stale entry and then does what the miss path does, so the entry
    is gone even when the upstream call fails. *)
Theorem stale_entry_is_refetched (int : string → option Z) (s : server)
    (username : string) (params : gmap string string) (now_get now_set : Q)
    (up : upstream) (v : pyval) (inserted_at : Q) :
  let page := (get_pagination_params int params).1 in
  let per_page := (get_pagination_params int params).2 in
  let key := cache_key username page per_page in
  gist_request username →
  String.eqb (lower (default "" (params !! "no_cache"))) "true" = false →
  cache (gist_cache s) !! key = Some (v, inserted_at) →
  (ttl (gist_cache s) <= now_get - inserted_at)%Q →
  do_GET int username params now_get now_set up s
    = fetch_and_store username page per_page key now_set up
        {| heap := heap s; gist_cache := with_cache (delete key) (gist_cache s) |} ∧
  ((∀ gist_list rate_remaining reset_at, up ≠ Fetched gist_list rate_remaining reset_at) →
   cache (gist_cache (do_GET int username params now_get now_set up s).2) !! key = None).
Proof.
  intros page per_page key Hpath Hbypass Hk Hage.
  assert (do_GET int username params now_get now_set up s
    = fetch_and_store username page per_page key now_set up
        {| heap := heap s; gist_cache := with_cache (delete key) (gist_cache s) |})
    as Heq.
  { rewrite (do_GET_after_get int username params now_get now_set up s VNone
               {| heap := heap s; gist_cache := with_cache (delete key) (gist_cache s) |});
      [done..|].
    by apply (on_cache_get_expired now_get key s v inserted_at). }
  split; [exact Heq|]. intros Hup. rewrite Heq.
  destruct (fetch_and_store_failed username page per_page key now_set up
              {| heap := heap s; gist_cache := with_cache (delete key) (gist_cache s) |}
              Hup) as (r & -> & _).
  simpl. apply lookup_delete_eq.
Qed.

Lemma stale_entry_is_refetched_witness :
  cache (gist_cache served_once) !! "octocat:page1:per_page30"
    = Some (VDict 4%positive, 1%Q) ∧
  cache (gist_cache (do_GET int_example "octocat" ∅ 400 401 (HTTPError 503)
                       served_once).2) !! "octocat:page1:per_page30" = None.
Proof.
  split; [vm_compute; reflexivity|].
  destruct (stale_entry_is_refetched int_example served_once "octocat" ∅ 400 401
              (HTTPError 503) (VDict 4%positive) 1%Q) as [_ Hgone].
  - unfold gist_request. split_and!; [discriminate..|reflexivity].
  - reflexivity.
  - vm_compute; reflexivity.
  - vm_compute; discriminate.
  - apply Hgone. discriminate.
Defined.

(** X17. A miss followed by the same request within the ttl is a hit on
    the same object: when the key is not stored and the upstream call
    succeeds, [do_GET] answers MISS with a new response object whose
    [hit] is [False]; the same request at a reading less than ttl after
    the store is answered HIT with that object, now marked [True],
    whatever the upstream would have given, and the cache is not
    changed by the hit. *)
Theorem miss_then_hit (int : string → option Z) (s : server) (username : string)
    (params : gmap string string) (now_get now_set now_get' now_set' : Q)
    (gist_list : list pyval) (rate_remaining reset_at : pyval) (up' : upstream) :
  let key := cache_key username (get_pagination_params int params).1
                                (get_pagination_params int params).2 in
  gist_request username →
  String.eqb (lower (default "" (params !! "no_cache"))) "true" = false →
  cache (gist_cache s) !! key = None →
  (now_get' - now_set < ttl (gist_cache s))%Q →
  ∃ l s1 s2,
    do_GET int username params now_get now_set
      (Fetched gist_list rate_remaining reset_at) s
    = (Ok {| status := 200; content_type := "application/json";
             x_cache_status := Some "MISS"; payload := BodyJson (VDict l) |}, s1) ∧
    read_hit (heap s1) (VDict l) = Some (VBool false) ∧
    do_GET int username params now_get' now_set' up' s1
    = (Ok {| status := 200; content_type := "application/json";
             x_cache_status := Some "HIT"; payload := BodyJson (VDict l) |}, s2) ∧
    read_hit (heap s2) (VDict l) = Some (VBool true) ∧
    gist_cache s2 = gist_cache s1.
Proof.
  intros key Hpath Hbypass Hk Hage.
  destruct (fetch_and_store_fetched username (get_pagination_params int params).1
              (get_pagination_params int params).2 key now_set gist_list
              rate_remaining reset_at s) as (l & l2 & h' & Heq & Hc & Hhit & _).
  eexists l, _, _. split.
  { rewrite (do_GET_after_get int username params now_get now_set _ s VNone s);
      [exact Heq|done..|]. by apply on_cache_get_absent. }
  split; [exact Hhit|].
  set (s1 := {| heap := h';
                gist_cache := with_cache (insert key (VDict l, now_set)) (gist_cache s) |}).
  assert (on_cache (get now_get' key) s1 = (Ok (VDict l), s1)) as Hget.
  { apply (on_cache_get_valid now_get' key s1 (VDict l) now_set); [|done].
    simpl. apply lookup_insert_eq. }
  assert (truthy (heap s1) (VDict l) = true) as Htruthy.
  { simpl. apply negb_true_iff, Nat.eqb_neq. by eapply size_lookup_ne_0. }
  rewrite (do_GET_after_get int username params now_get' now_set' up' s1 (VDict l) s1)
    by done.
  rewrite Htruthy. rewrite (send_cached_response_ok s1 l l2) by done.
  split; [reflexivity|]. split; [|done]. simpl. by apply read_hit_after_store.
Qed.

Lemma miss_then_hit_witness :
  ∃ l s1 s2,
    do_GET int_example "octocat" ∅ 0 1 (Fetched [] (VStr "59") VNone) started
    = (Ok {| status := 200; content_type := "application/json";
             x_cache_status := Some "MISS"; payload := BodyJson (VDict l) |}, s1) ∧
    do_GET int_example "octocat" ∅ 100 101 OtherException s1
    = (Ok {| status := 200; content_type := "application/json";
             x_cache_status := Some "HIT"; payload := BodyJson (VDict l) |}, s2) ∧
    read_hit (heap s2) (VDict l) = Some (VBool true).
Proof.
  destruct (miss_then_hit int_example started "octocat" ∅ 0 1 100 101 []
              (VStr "59") VNone OtherException)
    as (l & s1 & s2 & Hmiss & _ & Hhit & Hmarked & _).
  - unfold gist_request. split_and!; [discriminate..|reflexivity].
  - reflexivity.
  - reflexivity.
  - vm_compute; reflexivity.
  - exists l, s1, s2. split; [exact Hmiss|]. split; [exact Hhit | exact Hmarked].
Defined.

(** X18. The routes [/], [/index.html] and [/cache] only read: the first
    two answer the help page, the third answers the statistics that
    [get_stats] gives at that clock reading; none of them changes the
    store, purges a stale entry or depends on the upstream. *)
Theorem read_only_routes (int : string → option Z) (s : server)
    (params : gmap string string) (now_get now_set : Q) (up : upstream) :
  let help := {| status := 200; content_type := "text/html";
                 x_cache_status := None; payload := BodyHtml |} in
  do_GET int "" params now_get now_set up s = (Ok help, s) ∧
  do_GET int "index.html" params now_get now_set up s = (Ok help, s) ∧
  ∃ st, get_stats now_get (gist_cache s) = (Ok st, gist_cache s) ∧
    do_GET int "cache" params now_get now_set up s
    = (Ok {| status := 200; content_type := "application/json";
             x_cache_status := None; payload := BodyStats st |}, s).
Proof.
  intros help. split_and!; [done..|].
  eexists. split; [apply get_stats_eq|].
  rewrite do_GET_stats. unfold handle_cache_stats, mbind, M_bind, on_cache.
  rewrite get_stats_eq. by destruct s.
Qed.

(** X19. Every path that starts with [cache/clear] clears the cache,
    whatever follows the prefix: [do_GET] empties the cache, keeping its
    ttl and the objects of the store, and reports the number of entries
    that were stored. *)
Theorem clear_route_is_a_prefix (int : string → option Z) (s : server)
    (rest : string) (params : gmap string string) (now_get now_set : Q)
    (up : upstream) :
  do_GET int ("cache/clear" +:+ rest) params now_get now_set up s =
    (Ok {| status := 200; content_type := "application/json";
           x_cache_status := None;
           payload := BodyCleared (Z.of_nat (size (cache (gist_cache s)))) |},
     {| heap := heap s; gist_cache := Cache_init (ttl (gist_cache s)) |}).
Proof. rewrite do_GET_clear by apply prefix_append. reflexivity. Qed.

(** X20. [get_pagination_params] always returns a page and a page size
    between 1 and 100. Values that parse within these bounds are
    returned as they are; if either of the two does not parse, both
    defaults (1, 30) are returned, also in place of the one that did
    parse. *)
Theorem pagination_params_bounds (int : string → option Z)
    (params : gmap string string) :
  let page_arg := int (default "1" (params !! "page")) in
  let per_page_arg := int (default "30" (params !! "per_page")) in
  let r := get_pagination_params int params in
  (1 <= r.1 <= 100 ∧ 1 <= r.2 <= 100) ∧
  (∀ p q, page_arg = Some p → per_page_arg = Some q →
     1 <= p <= 100 → 1 <= q <= 100 → r = (p, q)) ∧
  (∀ p q, page_arg = Some p → per_page_arg = Some q →
     (p < 1 → r.1 = 1) ∧ (100 < p → r.1 = 100) ∧
     (q < 1 → r.2 = 1) ∧ (100 < q → r.2 = 100)) ∧
  (page_arg = None ∨ per_page_arg = None → r = (1, 30)).
Proof.
  intros page_arg per_page_arg r. subst page_arg per_page_arg r.
  unfold get_pagination_params.
  destruct (int (default "1" (params !! "page"))) as [p|];
    destruct (int (default "30" (params !! "per_page"))) as [q|]; simpl.
  - split; [lia|]. split_and!.
    + intros p' q' [= <-] [= <-] Hp Hq. f_equal; lia.
    + intros p' q' [= <-] [= <-]. lia.
    + intros [|]; discriminate.
  - split; [lia|]. split_and!; [by intros ?? ? [=] | by intros ?? ? [=] | done].
  - split; [lia|]. split_and!; [by intros ?? [=] | by intros ?? [=] | done].
  - split; [lia|]. split_and!; [by intros ?? [=] | by intros ?? [=] | done].
Qed.

Lemma pagination_params_bounds_witness :
  get_pagination_params int_example {[ "page" := "1"; "per_page" := "30" ]} = (1, 30) ∧
  get_pagination_params int_example {[ "page" := "1"; "per_page" := "many" ]} = (1, 30).
Proof.
  split.
  - destruct (pagination_params_bounds int_example {[ "page" := "1"; "per_page" := "30" ]})
      as (_ & Hin & _).
    apply (Hin 1 30); [reflexivity | reflexivity | lia | lia].
  - destruct (pagination_params_bounds int_example {[ "page" := "1"; "per_page" := "many" ]})
      as (_ & _ & _ & Hnone).
    apply Hnone. right. reflexivity.
Defined.

(** ** The response built on a miss *)

Lemma in_dom_insert (h : heap_t) (l l' : loc) (d : pydict) :
  l = l' ∨ l ∈ dom h → l ∈ dom (<[l' := d]> h).
Proof. by rewrite dom_insert_L, elem_of_union, elem_of_singleton. Qed.

Lemma fetch_and_store_content username page per_page key now gist_list
    rate_remaining reset_at (s : server) :
  let n := Z.of_nat (length gist_list) in
  ∃ l s',
    fetch_and_store username page per_page key now
      (Fetched gist_list rate_remaining reset_at) s
    = (Ok {| status := 200; content_type := "application/json";
             x_cache_status := Some "MISS"; payload := BodyJson (VDict l) |}, s') ∧
    cache (gist_cache s') !! key = Some (VDict l, now) ∧
    read1 (heap s') (VDict l) "username" = Some (VStr username) ∧
    read1 (heap s') (VDict l) "page" = Some (VInt page) ∧
    read1 (heap s') (VDict l) "per_page" = Some (VInt per_page) ∧
    read1 (heap s') (VDict l) "gist_count" = Some (VInt n) ∧
    read1 (heap s') (VDict l) "gists" = Some (VList gist_list) ∧
    read2 (heap s') (VDict l) "pagination" "has_next" = Some (VBool (n =? per_page)) ∧
    read2 (heap s') (VDict l) "pagination" "next_page"
      = Some (if n =? per_page then VInt (page + 1) else VNone) ∧
    read2 (heap s') (VDict l) "pagination" "prev_page"
      = Some (if 1 <? page then VInt (page - 1) else VNone) ∧
    read2 (heap s') (VDict l) "rate_limit" "remaining" = Some rate_remaining ∧
    read2 (heap s') (VDict l) "rate_limit" "reset_at" = Some reset_at ∧
    read2 (heap s') (VDict l) "cache" "hit" = Some (VBool false) ∧
    read2 (heap s') (VDict l) "cache" "ttl_seconds" = Some (VNum (ttl (gist_cache s))).
Proof.
  intros n.
  unfold fetch_and_store, mbind, M_bind, new_dict, on_cache, gets, set, setitem, modify.
  cbn beta iota delta [heap gist_cache mret M_ret mbind M_bind fst snd].
  set (d1 := list_to_map _ : pydict).
  set (l1 := fresh (dom (heap s))). set (h1 := <[l1 := d1]> (heap s)).
  set (d2 := list_to_map _ : pydict).
  set (l2 := fresh (dom h1)). set (h2 := <[l2 := d2]> h1).
  set (d3 := list_to_map _ : pydict).
  set (l3 := fresh (dom h2)). set (h3 := <[l3 := d3]> h2).
  set (d4 := list_to_map _ : pydict).
  set (l4 := fresh (dom h3)). set (h4 := <[l4 := d4]> h3).
  assert (l1 ∈ dom h1) as H11 by (apply in_dom_insert; by left).
  assert (l1 ∈ dom h2) as H12 by (apply in_dom_insert; by right).
  assert (l2 ∈ dom h2) as H22 by (apply in_dom_insert; by left).
  assert (l1 ∈ dom h3) as H13 by (apply in_dom_insert; by right).
  assert (l2 ∈ dom h3) as H23 by (apply in_dom_insert; by right).
  assert (l3 ∈ dom h3) as H33 by (apply in_dom_insert; by left).
  pose proof (is_fresh (dom h1)) as F2. pose proof (is_fresh (dom h2)) as F3.
  pose proof (is_fresh (dom h3)) as F4. fold l2 in F2. fold l3 in F3. fold l4 in F4.
  assert (h4 !!! l4 = d4) as E4 by apply lookup_total_insert_eq.
  assert (h4 !!! l3 = d3) as E3.
  { subst h4. rewrite lookup_total_insert_ne by (intros ->; done).
    apply lookup_total_insert_eq. }
  assert (h4 !!! l2 = d2) as E2.
  { subst h4 h3. rewrite !lookup_total_insert_ne by (intros ->; done).
    apply lookup_total_insert_eq. }
  assert (h4 !!! l1 = d1) as E1.
  { subst h4 h3 h2. rewrite !lookup_total_insert_ne by (intros ->; done).
    apply lookup_total_insert_eq. }
  exists l4. eexists. split; [reflexivity|].
  cbn [gist_cache heap cache with_cache].
  split; [apply lookup_insert_eq|].
  unfold read2, read1. rewrite E4.
  change (d4 !! "pagination") with (Some (VDict l1)).
  change (d4 !! "rate_limit") with (Some (VDict l2)).
  change (d4 !! "cache") with (Some (VDict l3)).
  cbn beta iota. rewrite E1, E2, E3.
  split_and!; reflexivity.
Qed.

(** X21. The response stored on a miss is consistent with the validated
    parameters: its page and page size are between 1 and 100, its
    [gist_count] is the length of its [gists], [has_next] says whether
    the page is full, [next_page] is the next page when it is full and
    [None] otherwise, [prev_page] is [None] on page 1 and the previous
    page after it, and [ttl_seconds] is the ttl of the cache. *)
Theorem miss_response_pagination (int : string → option Z) (s : server)
    (username : string) (params : gmap string string) (now_get now_set : Q)
    (gist_list : list pyval) (rate_remaining reset_at : pyval) :
  let page := (get_pagination_params int params).1 in
  let per_page := (get_pagination_params int params).2 in
  let key := cache_key username page per_page in
  let n := Z.of_nat (length gist_list) in
  gist_request username →
  cache (gist_cache s) !! key = None →
  ∃ l s',
    do_GET int username params now_get now_set
      (Fetched gist_list rate_remaining reset_at) s
    = (Ok {| status := 200; content_type := "application/json";
             x_cache_status := Some "MISS"; payload := BodyJson (VDict l) |}, s') ∧
    (1 <= page <= 100 ∧ 1 <= per_page <= 100) ∧
    read1 (heap s') (VDict l) "page" = Some (VInt page) ∧
    read1 (heap s') (VDict l) "per_page" = Some (VInt per_page) ∧
    read1 (heap s') (VDict l) "gist_count" = Some (VInt n) ∧
    read1 (heap s') (VDict l) "gists" = Some (VList gist_list) ∧
    read2 (heap s') (VDict l) "pagination" "has_next" = Some (VBool (n =? per_page)) ∧
    (n = per_page →
     read2 (heap s') (VDict l) "pagination" "next_page" = Some (VInt (page + 1))) ∧
    (n ≠ per_page →
     read2 (heap s') (VDict l) "pagination" "next_page" = Some VNone) ∧
    (page = 1 →
     read2 (heap s') (VDict l) "pagination" "prev_page" = Some VNone) ∧
    (1 < page →
     read2 (heap s') (VDict l) "pagination" "prev_page" = Some (VInt (page - 1))) ∧
    read2 (heap s') (VDict l) "cache" "ttl_seconds" = Some (VNum (ttl (gist_cache s))).
Proof.
  intros page per_page key n Hpath Hk.
  destruct (fetch_and_store_content username page per_page key now_set gist_list
              rate_remaining reset_at s)
    as (l & s' & Heq & _ & _ & Hpage & Hper & Hcount & Hgists & Hnext & Hnp & Hpp
        & _ & _ & _ & Httl).
  exists l, s'. split.
  { destruct (String.eqb (lower (default "" (params !! "no_cache"))) "true") eqn:Hb.
    - by rewrite do_GET_bypass.
    - rewrite (do_GET_after_get int username params now_get now_set _ s VNone s);
        [done..|]. by apply on_cache_get_absent. }
  split; [apply get_pagination_params_range|].
  split_and!; try done.
  - intros Hn. rewrite Hnp. fold n. by rewrite (proj2 (Z.eqb_eq _ _) Hn).
  - intros Hn. rewrite Hnp. fold n. by rewrite (proj2 (Z.eqb_neq _ _) Hn).
  - intros Hp. rewrite Hpp, Hp. reflexivity.
  - intros Hp. rewrite Hpp. by rewrite (proj2 (Z.ltb_lt _ _) Hp).
Qed.

Lemma miss_response_pagination_witness :
  ∃ l s',
    do_GET int_example "octocat" ∅ 0 1 (Fetched [VStr "g1"; VStr "g2"] VNone VNone) started
    = (Ok {| status := 200; content_type := "application/json";
             x_cache_status := Some "MISS"; payload := BodyJson (VDict l) |}, s') ∧
    read1 (heap s') (VDict l) "gist_count" = Some (VInt 2) ∧
    read2 (heap s') (VDict l) "pagination" "has_next" = Some (VBool false) ∧
    read2 (heap s') (VDict l) "pagination" "next_page" = Some VNone ∧
    read2 (heap s') (VDict l) "pagination" "prev_page" = Some VNone.
Proof.
  destruct (miss_response_pagination int_example started "octocat" ∅ 0 1
              [VStr "g1"; VStr "g2"] VNone VNone)
    as (l & s' & Heq & _ & _ & _ & Hcount & _ & Hnext & _ & Hnone & Hprev & _).
  - unfold gist_request. split_and!; [discriminate..|reflexivity].
  - reflexivity.
  - exists l, s'. split; [exact Heq|]. split; [exact Hcount|].
    split; [exact Hnext|]. split; [apply Hnone; discriminate | apply Hprev; reflexivity].
Defined.

(** ** [format_gists] *)

Lemma truthy_alloc (h : heap_t) (l0 : loc) (d0 : pydict) (v : pyval) :
  (∀ l, v = VDict l → l ≠ l0) → truthy (<[l0 := d0]> h) v = truthy h v.
Proof.
  intros Hv. destruct v as [| | | | |l]; try done. simpl.
  by rewrite lookup_total_insert_ne by (apply not_eq_sym; by apply Hv).
Qed.

Lemma keys_list_alloc (h : heap_t) (l0 : loc) (d0 : pydict) (v : pyval) :
  (∀ l, v = VDict l → l ≠ l0) → keys_list (<[l0 := d0]> h) v = keys_list h v.
Proof.
  intros Hv. destruct v as [| | | | |l]; try done. simpl.
  by rewrite lookup_total_insert_ne by (apply not_eq_sym; by apply Hv).
Qed.

Lemma py_len_alloc (h : heap_t) (l0 : loc) (d0 : pydict) (v : pyval) :
  (∀ l, v = VDict l → l ≠ l0) → py_len (<[l0 := d0]> h) v = py_len h v.
Proof.
  intros Hv. destruct v as [| | | | |l]; try done. simpl.
  by rewrite lookup_total_insert_ne by (apply not_eq_sym; by apply Hv).
Qed.

(** Allocating an object does not change what a gist of the store is
    formatted to. *)
Lemma format_gist_alloc (h : heap_t) (l0 : loc) (d0 : pydict) (gist : pyval) :
  l0 ∉ dom h → closed h gist →
  format_gist (<[l0 := d0]> h) gist = format_gist h gist.
Proof.
  intros Hfresh Hclosed. destruct gist as [| | | | |l]; try done.
  destruct (Hclosed l eq_refl) as [Hl Hfields].
  assert (∀ key v l', (h !!! l) !! key = Some v → v = VDict l' → l' ≠ l0) as Hne.
  { intros key v l' Hkey -> ->. by apply Hfields in Hkey. }
  unfold format_gist.
  rewrite lookup_total_insert_ne by (intros ->; done).
  unfold item.
  destruct ((h !!! l) !! "id") as [id|]; [|done]. simpl.
  destruct ((h !!! l) !! "description") as [description|] eqn:Hd; [|done]. simpl.
  destruct ((h !!! l) !! "html_url") as [url|]; [|done]. simpl.
  destruct ((h !!! l) !! "files") as [files|] eqn:Hf; [|done]. simpl.
  rewrite keys_list_alloc, py_len_alloc, truthy_alloc; eauto.
Qed.

Lemma closed_alloc (h : heap_t) (l0 : loc) (d0 : pydict) (gist : pyval) :
  l0 ∉ dom h → closed h gist → closed (<[l0 := d0]> h) gist.
Proof.
  intros Hfresh Hclosed l ->. destruct (Hclosed l eq_refl) as [Hl Hfields].
  split; [apply in_dom_insert; by right|].
  intros key l'. rewrite lookup_total_insert_ne by (intros ->; done).
  intros Hkey. apply in_dom_insert. right. by eapply Hfields.
Qed.

Lemma Forall2_impl_l {A B} (P : A → Prop) (R R' : A → B → Prop) l k :
  Forall P l → Forall2 R l k → (∀ x y, P x → R x y → R' x y) → Forall2 R' l k.
Proof.
  intros HP HR Himpl. induction HR as [|x y l k Hxy HR IH]; [constructor|].
  apply Forall_cons in HP as [Hx HP]. constructor; auto.
Qed.

(** What the loop does: it formats the gists one after the other, each
    as it was in the store the loop started in, until one raises. *)
Lemma format_gists_loop_spec (gists acc : list pyval) (s : server) :
  Forall (closed (heap s)) gists →
  ∃ s', heap s ⊆ heap s' ∧ gist_cache s' = gist_cache s ∧
    ((∃ new, format_gists_loop gists acc s = (Formatted (acc ++ new), s') ∧
        Forall2 (λ gist v, ∃ l' d, v = VDict l' ∧ (l' ∉ dom (heap s)) ∧
                   format_gist (heap s) gist = Formatted d ∧
                   heap s' !! l' = Some d) gists new) ∨
     (∃ pre gist post e, gists = pre ++ gist :: post ∧
        Forall (λ g, ∃ d, format_gist (heap s) g = Formatted d) pre ∧
        format_gist (heap s) gist = FormatRaise e ∧
        format_gists_loop gists acc s = (FormatRaise e, s'))).
Proof.
  revert acc s. induction gists as [|gist gists IH]; intros acc s Hclosed.
  { exists s. split; [done|]. split; [done|]. left. exists [].
    split; [by rewrite app_nil_r | constructor]. }
  apply Forall_cons in Hclosed as [Hgist Hgists]. simpl.
  destruct (format_gist (heap s) gist) as [d|e] eqn:Hfmt.
  - pose proof (is_fresh (dom (heap s))) as Hfresh.
    set (l0 := fresh (dom (heap s))) in *.
    set (s0 := {| heap := <[l0 := d]> (heap s); gist_cache := gist_cache s |}).
    assert (heap s ⊆ heap s0) as Hsub0.
    { simpl. apply insert_subseteq. by apply not_elem_of_dom. }
    destruct (IH (acc ++ [VDict l0]) s0) as (s' & Hsub & Hcache & Hcases).
    { eapply Forall_impl; [exact Hgists|]. intros g Hg. simpl. by apply closed_alloc. }
    exists s'. split; [by etrans|]. split; [done|].
    destruct Hcases as [(new & Heq & Hall)|(pre & g & post & e & -> & Hpre & Hg & Heq)].
    + left. exists (VDict l0 :: new). split.
      { rewrite Heq. by rewrite <-app_assoc. }
      constructor.
      * exists l0, d. split_and!; [done..|].
        eapply lookup_weaken; [|exact Hsub]. simpl. apply lookup_insert_eq.
      * eapply Forall2_impl_l; [exact Hgists|exact Hall|].
        intros g v Hg (l' & d' & -> & Hl' & Hfmt' & Hd').
        exists l', d'. split_and!; [done| |by rewrite <-(format_gist_alloc _ l0 d)|done].
        intros Hin. apply Hl'. simpl. apply in_dom_insert. by right.
    + right. exists (gist :: pre), g, post, e.
      apply Forall_app in Hgists as [Hcpre Hcg]. apply Forall_cons in Hcg as [Hcg _].
      split_and!; [done| |by rewrite <-(format_gist_alloc _ l0 d)|done].
      constructor; [by exists d|].
      pose proof (conj Hcpre Hpre) as Hboth. apply Forall_and in Hboth.
      eapply Forall_impl; [exact Hboth|]. simpl.
      intros g' [Hc' (d' & Hd')]. exists d'.
      by rewrite <-(format_gist_alloc _ l0 d).
  - exists s. split; [done|]. split; [done|]. right.
    exists [], gist, gists, e. split_and!; [done|constructor|done|done].
Qed.

Lemma format_gist_formattable (h : heap_t) (gist : pyval) :
  (∃ d, format_gist h gist = Formatted d) ↔ formattable h gist.
Proof.
  split.
  - intros [d Hd]. destruct gist as [| | | | |l]; try done.
    unfold format_gist, item in Hd.
    destruct ((h !!! l) !! "id") as [id|] eqn:H1; [|done]. simpl in Hd.
    destruct ((h !!! l) !! "description") as [description|] eqn:H2; [|done]. simpl in Hd.
    destruct ((h !!! l) !! "html_url") as [url|] eqn:H3; [|done]. simpl in Hd.
    destruct ((h !!! l) !! "files") as [files|] eqn:H4; [|done]. simpl in Hd.
    destruct files as [| | | | |lf]; try done. simpl in Hd.
    destruct ((h !!! l) !! "public") as [public|] eqn:H5; [|done]. simpl in Hd.
    destruct ((h !!! l) !! "created_at") as [created_at|] eqn:H6; [|done]. simpl in Hd.
    destruct ((h !!! l) !! "updated_at") as [updated_at|] eqn:H7; [|done].
    exists l, lf. split; [done|]. split; [done|].
    intros key Hin.
    repeat (apply elem_of_cons in Hin as [->|Hin]; [by eauto|]).
    by apply elem_of_nil in Hin.
  - intros (l & lf & -> & Hfiles & Hkeys).
    unfold format_gist, item. rewrite Hfiles.
    destruct (Hkeys "id") as [? ->]; [repeat constructor|].
    destruct (Hkeys "description") as [? ->]; [repeat constructor|].
    destruct (Hkeys "html_url") as [? ->]; [repeat constructor|].
    destruct (Hkeys "public") as [? ->]; [repeat constructor|].
    destruct (Hkeys "created_at") as [? ->]; [repeat constructor|].
    destruct (Hkeys "updated_at") as [? ->]; [repeat constructor|].
    by eexists.
Qed.

(** What a formatted gist holds. *)
Lemma format_gist_fields (h : heap_t) (l : loc) (d : pydict) :
  format_gist h (VDict l) = Formatted d →
  ∃ lf description,
    (h !!! l) !! "files" = Some (VDict lf) ∧
    (h !!! l) !! "description" = Some description ∧
    d !! "id" = (h !!! l) !! "id" ∧
    d !! "url" = (h !!! l) !! "html_url" ∧
    d !! "html_url" = None ∧
    d !! "description"
      = Some (if truthy h description then description else VStr "No description") ∧
    d !! "comments" = Some (default (VInt 0) ((h !!! l) !! "comments")) ∧
    d !! "file_count" = Some (VInt (Z.of_nat (size (h !!! lf)))) ∧
    d !! "files" = Some (VList (VStr <$> (map_to_list (h !!! lf)).*1)) ∧
    d !! "public" = (h !!! l) !! "public" ∧
    d !! "created_at" = (h !!! l) !! "created_at" ∧
    d !! "updated_at" = (h !!! l) !! "updated_at" ∧
    size d = 9%nat.
Proof.
  intros Hd. unfold format_gist, item in Hd.
  destruct ((h !!! l) !! "id") as [id|] eqn:H1; [|done]. simpl in Hd.
  destruct ((h !!! l) !! "description") as [description|] eqn:H2; [|done]. simpl in Hd.
  destruct ((h !!! l) !! "html_url") as [url|] eqn:H3; [|done]. simpl in Hd.
  destruct ((h !!! l) !! "files") as [files|] eqn:H4; [|done]. simpl in Hd.
  destruct files as [| | | | |lf]; try done. simpl in Hd.
  destruct ((h !!! l) !! "public") as [public|] eqn:H5; [|done]. simpl in Hd.
  destruct ((h !!! l) !! "created_at") as [created_at|] eqn:H6; [|done]. simpl in Hd.
  destruct ((h !!! l) !! "updated_at") as [updated_at|] eqn:H7; [|done]. simpl in Hd.
  injection Hd as <-.
  exists lf, description. split_and!; reflexivity.
Qed.

Lemma first_failure_unique {A} (P : A → Prop) (pre pre' post post' : list A) (g g' : A) :
  Forall P pre → ¬ P g → Forall P pre' → ¬ P g' →
  pre ++ g :: post = pre' ++ g' :: post' → pre = pre' ∧ g = g' ∧ post = post'.
Proof.
  revert pre'. induction pre as [|x pre IH]; intros [|x' pre'] Hpre Hg Hpre' Hg' Heq;
    simpl in Heq.
  - by injection Heq as -> ->.
  - injection Heq as -> _. apply Forall_cons in Hpre' as [Hx _]. done.
  - injection Heq as -> _. apply Forall_cons in Hpre as [Hx _]. done.
  - injection Heq as -> Heq.
    apply Forall_cons in Hpre as [_ Hpre]. apply Forall_cons in Hpre' as [_ Hpre'].
    destruct (IH pre' Hpre Hg Hpre' Hg' Heq) as (-> & -> & ->). done.
Qed.

Lemma format_gist_raise_not_formattable (h : heap_t) (gist : pyval) (e : format_exn) :
  format_gist h gist = FormatRaise e → ¬ formattable h gist.
Proof.
  intros Hraise [d Hd]%format_gist_formattable. by rewrite Hd in Hraise.
Qed.

Lemma closedb_closed (h : heap_t) (gist : pyval) :
  closedb h gist = true → closed h gist.
Proof.
  intros Hb l ->. simpl in Hb. apply andb_true_iff in Hb as [Hl Hall].
  apply bool_decide_eq_true in Hl. split; [done|].
  intros key l' Hkey. rewrite forallb_forall in Hall.
  specialize (Hall (key, VDict l')). simpl in Hall.
  assert (bool_decide (l' ∈ dom h) = true) as Hb.
  { apply Hall, list_elem_of_In. by apply elem_of_map_to_list. }
  by apply bool_decide_eq_true in Hb.
Qed.

Lemma formattableb_formattable (h : heap_t) (gist : pyval) :
  formattableb h gist = true → formattable h gist.
Proof.
  unfold formattableb. intros Hb. apply format_gist_formattable.
  destruct (format_gist h gist) as [d|e]; [by exists d | done].
Qed.

(** Proving a property of every gist of an explicit list. *)
Ltac each_gist tac :=
  repeat (apply Forall_cons; split; [tac|]); by apply Forall_nil.

(** X22. [format_gists] succeeds on a list of gists that are all
    dictionaries with the keys it reads and a dictionary of files: it
    returns one formatted gist for each gist, each a new object of the
    store; it leaves every object that was in the store, the gists
    included, as it was, and does not touch the cache. *)
Theorem format_gists_succeeds (gists : list pyval) (s : server) :
  Forall (closed (heap s)) gists →
  Forall (formattable (heap s)) gists →
  ∃ gist_list s', format_gists gists s = (Formatted gist_list, s') ∧
    length gist_list = length gists ∧
    gist_cache s' = gist_cache s ∧
    heap s ⊆ heap s' ∧
    Forall (λ v, ∃ l', v = VDict l' ∧ (l' ∉ dom (heap s)) ∧ l' ∈ dom (heap s')) gist_list.
Proof.
  intros Hclosed Hfmt.
  destruct (format_gists_loop_spec gists [] s Hclosed) as (s' & Hsub & Hcache & Hcases).
  destruct Hcases as [(new & Heq & Hall)|(pre & g & post & e & -> & _ & Hg & _)].
  - exists new, s'. split; [exact Heq|].
    split; [symmetry; by eapply Forall2_length|]. split; [done|]. split; [done|].
    clear Heq. induction Hall as [|g v gs vs (l' & d & -> & Hl' & _ & Hd) _ IH];
      [constructor|].
    apply Forall_cons in Hclosed as [_ Hclosed]. apply Forall_cons in Hfmt as [_ Hfmt].
    constructor; [|by apply IH].
    exists l'. split_and!; [done..|]. apply elem_of_dom. eauto.
  - apply Forall_app in Hfmt as [_ Hfmt]. apply Forall_cons in Hfmt as [Hfmt _].
    by apply format_gist_raise_not_formattable in Hg.
Qed.

Lemma format_gists_succeeds_witness :
  ∃ gist_list s', format_gists [VDict 1%positive] gist_store = (Formatted gist_list, s') ∧
    length gist_list = 1%nat ∧ gist_cache s' = gist_cache gist_store.
Proof.
  destruct (format_gists_succeeds [VDict 1%positive] gist_store)
    as (gl & s' & Heq & Hlen & Hcache & _).
  - constructor; [|constructor]. apply closedb_closed. vm_compute. reflexivity.
  - constructor; [|constructor]. apply formattableb_formattable.
    vm_compute. reflexivity.
  - exists gl, s'. split; [exact Heq|]. split; [exact Hlen | exact Hcache].
Defined.

Lemma format_gist_raise_cases (h : heap_t) (gist : pyval) (e : format_exn) :
  format_gist h gist = FormatRaise e →
  match gist with
  | VDict l =>
      (e = FormatExn KeyError ∧
       ∃ key, key ∈ ["id"; "description"; "html_url"; "files"; "public";
                     "created_at"; "updated_at"] ∧ (h !!! l) !! key = None) ∨
      (e = AttributeError ∧
       ∃ files, (h !!! l) !! "files" = Some files ∧ ∀ lf, files ≠ VDict lf)
  | _ => e = FormatExn TypeError
  end.
Proof.
  intros Hd. destruct gist as [| | | | |l]; try (by injection Hd as <-).
  unfold format_gist, item in Hd.
  destruct ((h !!! l) !! "id") as [id|] eqn:H1; simpl in Hd;
    [|injection Hd as <-; left; split; [done|]; exists "id"; split;
       [repeat constructor|done]].
  destruct ((h !!! l) !! "description") as [description|] eqn:H2; simpl in Hd;
    [|injection Hd as <-; left; split; [done|]; exists "description"; split;
       [repeat constructor|done]].
  destruct ((h !!! l) !! "html_url") as [url|] eqn:H3; simpl in Hd;
    [|injection Hd as <-; left; split; [done|]; exists "html_url"; split;
       [repeat constructor|done]].
  destruct ((h !!! l) !! "files") as [files|] eqn:H4; simpl in Hd;
    [|injection Hd as <-; left; split; [done|]; exists "files"; split;
       [repeat constructor|done]].
  destruct files as [| | | | |lf];
    try (injection Hd as <-; right; split; [done|]; eexists; split; [done|]; by intros ?).
  simpl in Hd.
  destruct ((h !!! l) !! "public") as [public|] eqn:H5; simpl in Hd;
    [|injection Hd as <-; left; split; [done|]; exists "public"; split;
       [repeat constructor|done]].
  destruct ((h !!! l) !! "created_at") as [created_at|] eqn:H6; simpl in Hd;
    [|injection Hd as <-; left; split; [done|]; exists "created_at"; split;
       [repeat constructor|done]].
  destruct ((h !!! l) !! "updated_at") as [updated_at|] eqn:H7; simpl in Hd;
    [done|injection Hd as <-; left; split; [done|]; exists "updated_at"; split;
       [repeat constructor|done]].
Qed.

(** X23. [format_gists] stops at the first gist it cannot format and
    raises what this gist makes it raise, returning no list:
    [TypeError] when the gist is not a dictionary, [KeyError] when one
    of the seven keys read by subscript is missing, [AttributeError]
    when [files] is not a dictionary. The objects that were in the store
    and the cache are left as they were. *)
Theorem format_gists_raises (pre post : list pyval) (gist : pyval) (s : server) :
  Forall (closed (heap s)) (pre ++ gist :: post) →
  Forall (formattable (heap s)) pre →
  ¬ formattable (heap s) gist →
  ∃ e s', format_gists (pre ++ gist :: post) s = (FormatRaise e, s') ∧
    format_gist (heap s) gist = FormatRaise e ∧
    match gist with
    | VDict l =>
        (e = FormatExn KeyError ∧
         ∃ key, key ∈ ["id"; "description"; "html_url"; "files"; "public";
                       "created_at"; "updated_at"] ∧ (heap s !!! l) !! key = None) ∨
        (e = AttributeError ∧
         ∃ files, (heap s !!! l) !! "files" = Some files ∧ ∀ lf, files ≠ VDict lf)
    | _ => e = FormatExn TypeError
    end ∧
    gist_cache s' = gist_cache s ∧
    heap s ⊆ heap s'.
Proof.
  intros Hclosed Hpre Hgist.
  destruct (format_gists_loop_spec (pre ++ gist :: post) [] s Hclosed)
    as (s' & Hsub & Hcache & Hcases).
  destruct Hcases as [(new & _ & Hall)|(pre' & g' & post' & e & Hsplit & Hpre' & Hg' & Heq)].
  - apply Forall2_app_inv_l in Hall as (new1 & new2 & _ & Hall & _).
    apply Forall2_cons_inv_l in Hall as (v & new3 & (l' & d & _ & _ & Hd & _) & _ & _).
    destruct Hgist. apply format_gist_formattable. by exists d.
  - destruct (first_failure_unique (formattable (heap s)) pre pre' post post' gist g')
      as (-> & -> & ->); [done|done| | |done|].
    { eapply Forall_impl; [exact Hpre'|]. intros g Hg. by apply format_gist_formattable. }
    { by eapply format_gist_raise_not_formattable. }
    exists e, s'. split; [exact Heq|]. split; [exact Hg'|].
    split; [by apply format_gist_raise_cases|]. done.
Qed.

Lemma format_gists_raises_witness :
  ∃ s', format_gists [VDict 1%positive; VDict 3%positive] gist_store
        = (FormatRaise (FormatExn KeyError), s') ∧
        gist_cache s' = gist_cache gist_store.
Proof.
  destruct (format_gists_raises [VDict 1%positive] [] (VDict 3%positive) gist_store)
    as (e & s' & Heq & Hfmt & _ & Hcache & _).
  - each_gist ltac:(apply closedb_closed; vm_compute; reflexivity).
  - each_gist ltac:(apply formattableb_formattable; vm_compute; reflexivity).
  - intros [d Hd]%format_gist_formattable. vm_compute in Hd. discriminate.
  - exists s'. split; [|exact Hcache].
    assert (e = FormatExn KeyError) as <-; [|exact Heq].
    vm_compute in Hfmt. by injection Hfmt.
Defined.

(** X24. What a formatted gist holds, read in the store [format_gists]
    leaves: the [id], [public], [created_at] and [updated_at] of the
    gist, its [html_url] under the key [url], its [description] when it
    is true and ["No description"] otherwise, its [comments] when it has
    this key and 0 otherwise, the number of its files as [file_count]
    and the names of its files as [files]; nine keys in all. *)
Theorem formatted_gist_fields (gists gist_list : list pyval) (s s' : server)
    (i : nat) (l : loc) :
  Forall (closed (heap s)) gists →
  format_gists gists s = (Formatted gist_list, s') →
  gists !! i = Some (VDict l) →
  let g := heap s !!! l in
  ∃ l' lf description names,
    gist_list !! i = Some (VDict l') ∧
    g !! "files" = Some (VDict lf) ∧
    g !! "description" = Some description ∧
    read1 (heap s') (VDict l') "id" = g !! "id" ∧
    read1 (heap s') (VDict l') "url" = g !! "html_url" ∧
    read1 (heap s') (VDict l') "html_url" = None ∧
    read1 (heap s') (VDict l') "description"
      = Some (if truthy (heap s) description then description
              else VStr "No description") ∧
    read1 (heap s') (VDict l') "comments" = Some (default (VInt 0) (g !! "comments")) ∧
    read1 (heap s') (VDict l') "public" = g !! "public" ∧
    read1 (heap s') (VDict l') "created_at" = g !! "created_at" ∧
    read1 (heap s') (VDict l') "updated_at" = g !! "updated_at" ∧
    read1 (heap s') (VDict l') "file_count"
      = Some (VInt (Z.of_nat (size (heap s !!! lf)))) ∧
    read1 (heap s') (VDict l') "files" = Some (VList names) ∧
    length names = size (heap s !!! lf) ∧
    (∀ name, VStr name ∈ names ↔ is_Some ((heap s !!! lf) !! name)) ∧
    size (heap s' !!! l') = 9%nat.
Proof.
  intros Hclosed Heq Hi g.
  destruct (format_gists_loop_spec gists [] s Hclosed) as (s0 & _ & _ & Hcases).
  unfold format_gists in Heq.
  destruct Hcases as [(new & Heq' & Hall)|(pre & g' & post & e & _ & _ & _ & Heq')];
    [|by rewrite Heq in Heq'].
  rewrite Heq in Heq'. injection Heq' as -> ->.
  destruct (Forall2_lookup_l _ _ _ _ _ Hall Hi) as (v & Hv & l' & d & -> & _ & Hd & Hl').
  destruct (format_gist_fields (heap s) l d Hd)
    as (lf & description & Hfiles & Hdesc & Hid & Hurl & Hhtml & Hdescr & Hcomments
        & Hcount & Hnames & Hpublic & Hcreated & Hupdated & Hsize).
  exists l', lf, description, (VStr <$> (map_to_list (heap s !!! lf)).*1).
  unfold read1. rewrite (lookup_total_correct _ _ _ Hl').
  split_and!; try done.
  - by rewrite !length_fmap, length_map_to_list.
  - intros name. rewrite list_elem_of_fmap. split.
    + intros (k & [= <-] & Hk). apply list_elem_of_fmap in Hk as ([k' v'] & -> & Hk).
      apply elem_of_map_to_list in Hk. simpl. eauto.
    + intros [v' Hv']. exists name. split; [done|].
      apply list_elem_of_fmap. exists (name, v'). split; [done|].
      by apply elem_of_map_to_list.
Qed.

Lemma formatted_gist_fields_witness :
  ∃ l' s', format_gists [VDict 1%positive] gist_store = (Formatted [VDict l'], s') ∧
    read1 (heap s') (VDict l') "url" = Some (VStr "https://gist.github.com/aa5a") ∧
    read1 (heap s') (VDict l') "description" = Some (VStr "No description") ∧
    read1 (heap s') (VDict l') "comments" = Some (VInt 0) ∧
    read1 (heap s') (VDict l') "file_count" = Some (VInt 1).
Proof.
  assert (∃ l' s', format_gists [VDict 1%positive] gist_store
                   = (Formatted [VDict l'], s')) as (l0 & s' & Heq).
  { eexists _, _. vm_compute. reflexivity. }
  destruct (formatted_gist_fields [VDict 1%positive] [VDict l0] gist_store s' 0
              1%positive)
    as (l' & lf & description & names & Hl' & Hfiles & Hdesc & _ & Hurl & _ & Hdescr
        & Hcomments & _ & _ & _ & Hcount & _).
  - each_gist ltac:(apply closedb_closed; vm_compute; reflexivity).
  - exact Heq.
  - reflexivity.
  - injection Hl' as <-. exists l0, s'. split; [exact Heq|].
    assert (lf = 2%positive) as -> by (vm_compute in Hfiles; by injection Hfiles).
    assert (description = VNone) as -> by (vm_compute in Hdesc; by injection Hdesc).
    split; [rewrite Hurl; vm_compute; reflexivity|].
    split; [rewrite Hdescr; reflexivity|].
    split; [rewrite Hcomments; vm_compute; reflexivity|].
    rewrite Hcount; vm_compute; reflexivity.
Defined.

(** ** [parse_query_params] *)


